(** * Smart-mirror pipeline: capture, pose tracking, overlay, calibration

    A shallow embedding of the Python modules
    [src/capture.py], [src/body_tracking.py], [src/overlay.py] and
    [src/calibration.py], together with the parts of Python, NumPy, OpenCV and
    the RealSense SDK that these modules lean on.

    - Python objects that are mutated in place or compared by identity
      (frames, i.e. NumPy image buffers) live in an explicit heap and are
      passed around as references.
    - Python exceptions are the [Raise] branch of [Py.result]; code that both
      mutates the heap and may raise returns the pair of an outcome and the
      heap reached.
    - float64 values are the kernel's binary64 floats. *)

From Stdlib Require Import ZArith Floats.
From stdpp Require Import gmap strings list.

Local Open Scope Z_scope.

(* ===================================================================== *)
(** ** Python: exceptions and outcomes *)
(* ===================================================================== *)

Module Py.

(** The exception classes that the modelled code can raise.  [InvalidRef]
    is not a Python exception: it marks a reference that denotes no live
    object, a state no Python program reaches. *)
Inductive exn : Type :=
| IndexError
| KeyError
| ValueError
| RuntimeError
| FileNotFoundError
| OverflowError
| Cv2Error        (* cv2.error *)
| InvalidRef.

Global Instance exn_eq_dec : EqDecision exn.
Proof. solve_decision. Defined.

Inductive result (A : Type) : Type :=
| Ok (a : A)
| Raise (e : exn).
Global Arguments Ok {A} a.
Global Arguments Raise {A} e.

Definition bind {A B} (r : result A) (k : A -> result B) : result B :=
  match r with
  | Ok a => k a
  | Raise e => Raise e
  end.

Definition is_ok {A} (r : result A) : bool :=
  match r with Ok _ => true | Raise _ => false end.

End Py.

Import Py.

Notation "'let!' x ':=' r 'in' k" := (Py.bind r (fun x => k))
  (at level 10, x name, r at level 100, k at level 200).

(* ===================================================================== *)
(** ** NumPy and OpenCV: the fragment used by the pipeline *)
(* ===================================================================== *)

Module Np.

(** *** float64 arrays of rank one and two *)

Inductive ndarray : Type :=
| Array1 (data : list float)                  (* shape (n,)   *)
| Array2 (ncols : nat) (data : list (list float)).  (* shape (n, ncols) *)

Definition shape (a : ndarray) : list nat :=
  match a with
  | Array1 d => [length d]
  | Array2 k d => [length d; k]
  end.

(** [np.array(rows)] on a list of equally long rows of floats.  The empty
    list has no rows to take a width from and becomes the empty array of
    rank ONE, shape (0,). *)
Definition array (rows : list (list float)) : ndarray :=
  match rows with
  | [] => Array1 []
  | r :: _ => Array2 (length r) rows
  end.

(** [a[:, j]]: indexing a rank-one array with two indices raises
    IndexError ("too many indices for array"). *)
Definition column (a : ndarray) (j : nat) : result (list float) :=
  match a with
  | Array1 _ => Raise IndexError
  | Array2 k rows =>
      if (j <? k)%nat then Ok (map (fun r => nth j r 0%float) rows)
      else Raise IndexError
  end.

(** The nearest float64 of an integer: round to nearest, ties to even. *)
Definition nearest_float (n : Z) : float :=
  SF2Prim (binary_normalize prec emax n 0 false).

(** The least magnitude that rounds beyond the largest float64: half a
    unit in the last place below 2^1024. *)
Definition float64_overflow : Z := 2 ^ 1024 - 2 ^ 970.

Definition fits_float64 (n : Z) : bool := Z.abs n <? float64_overflow.

(** A Python int entering float64 arithmetic: OverflowError ("int too
    large to convert to float") when it rounds beyond the float64 range. *)
Definition float_of_int (n : Z) : result float :=
  if fits_float64 n then Ok (nearest_float n) else Raise OverflowError.

(** [v * n] for a float64 vector [v] and a Python int [n]. *)
Definition mul_int (v : list float) (n : Z) : result (list float) :=
  let! f := float_of_int n in
  Ok (map (fun a => PrimFloat.mul a f) v).

Definition int64_min : Z := - 2 ^ 63.
Definition int64_max : Z := 2 ^ 63 - 1.

Section Cast.
(** The result of casting NaN, an infinity or a value beyond the int64
    range is left to the platform by C (x86-64 gives [int64_min],
    AArch64 saturates); no exception is raised. *)
Variable cast_out_of_range : float -> Z.

(** [float64 -> int64] as [astype(int)] does it: truncation toward
    zero. *)
Definition trunc (f : float) : Z :=
  match Prim2SF f with
  | S754_zero _ => 0
  | S754_finite s m e =>
      let a := if 0 <=? e then Z.shiftl (Zpos m) e
               else Z.shiftr (Zpos m) (- e) in
      let v := if s then - a else a in
      if (int64_min <=? v) && (v <=? int64_max) then v
      else cast_out_of_range f
  | _ => cast_out_of_range f
  end.

(** [np.column_stack((xs, ys)).astype(int)] for two vectors: one row
    per index present in both. *)
Definition column_stack_int (xs ys : list float) : list (Z * Z) :=
  map (fun p => (trunc (fst p), trunc (snd p))) (zip xs ys).
End Cast.

(** *** Images: uint8 arrays of shape (rows, cols, 3) *)

Definition pixel : Type := Z * Z * Z.

Record image : Type := Image {
  rows : nat;
  cols : nat;
  buffer : list pixel   (* row-major *)
}.

Global Instance pixel_eq_dec : EqDecision pixel.
Proof. solve_decision. Defined.
Global Instance image_eq_dec : EqDecision image.
Proof. solve_decision. Defined.

Definition dims (img : image) : nat * nat := (rows img, cols img).

(** Frames are heap objects: [frame.copy()] allocates, the drawing calls
    write in place. *)
Abbreviation loc := positive.
Abbreviation heap := (gmap positive image).

Definition alloc (img : image) (h : heap) : loc * heap :=
  let l := fresh (dom h) in (l, <[l := img]> h).

Definition copy (l : loc) (h : heap) : option (loc * heap) :=
  match h !! l with
  | Some img => Some (alloc img h)
  | None => None
  end.

End Np.

Module Cv2.
Import Np.

(** OpenCV stores a colour component into a uint8 channel with
    saturation. *)
Definition saturate_u8 (v : Z) : Z := Z.max 0 (Z.min 255 v).

Definition scalar (c : Z * Z * Z) : pixel :=
  let '(b, g, r) := c in (saturate_u8 b, saturate_u8 g, saturate_u8 r).

(** Writing one pixel at column [x], row [y]; positions outside the image
    are clipped. *)
Definition put_pixel (c : pixel) (img : image) (p : Z * Z) : image :=
  let '(x, y) := p in
  if (0 <=? x) && (x <? Z.of_nat (cols img)) &&
     (0 <=? y) && (y <? Z.of_nat (rows img))
  then Image (rows img) (cols img)
             (<[Z.to_nat (y * Z.of_nat (cols img) + x) := c]> (buffer img))
  else img.

Definition paint (c : pixel) (img : image) (ps : list (Z * Z)) : image :=
  foldl (put_pixel c) img ps.

(** An image without rows or without columns. *)
Definition empty (img : image) : bool :=
  (rows img =? 0)%nat || (cols img =? 0)%nat.

(** [cv2.cvtColor(frame, cv2.COLOR_BGR2RGB)]: a new image with the first
    and third channel exchanged; cv2.error on an empty image. *)
Definition cvtColor_BGR2RGB (img : image) : result image :=
  if empty img then Raise Cv2Error
  else Ok (Image (rows img) (cols img)
                 (map (fun '(b, g, r) => (r, g, b)) (buffer img))).

(** A point argument is converted to two C ints; cv2.error when a
    coordinate does not fit. *)
Definition int_min : Z := - 2 ^ 31.
Definition int_max : Z := 2 ^ 31 - 1.

Definition fits_int (v : Z) : bool := (int_min <=? v) && (v <=? int_max).

Definition point_ok (p : Z * Z) : bool := fits_int (fst p) && fits_int (snd p).

Section Raster.
(** The rasterisers of OpenCV (which pixels a thick segment or a disc
    covers) are external; the pipeline only relies on [cv2.line] and
    [cv2.circle] writing the given colour at the covered pixels that lie
    inside the image. *)
Variable line_raster : Z * Z -> Z * Z -> Z -> list (Z * Z).
Variable circle_raster : Z * Z -> Z -> Z -> list (Z * Z).

(** The image a drawn segment, or a drawn disc, leaves. *)
Definition line_painted (img : image) (p q : Z * Z) (c : Z * Z * Z)
    (thickness : Z) : image :=
  paint (scalar c) img (line_raster p q thickness).

Definition circle_painted (img : image) (center : Z * Z) (radius : Z)
    (c : Z * Z * Z) (thickness : Z) : image :=
  paint (scalar c) img (circle_raster center radius thickness).

(** [cv2.line(img, p, q, c, thickness)]: the arguments are converted
    first, so nothing is drawn when the call raises. *)
Definition line (img : image) (p q : Z * Z) (c : Z * Z * Z)
    (thickness : Z) : result image :=
  if point_ok p && point_ok q then Ok (line_painted img p q c thickness)
  else Raise Cv2Error.

(** [cv2.circle(img, center, radius, c, thickness)] *)
Definition circle (img : image) (center : Z * Z) (radius : Z)
    (c : Z * Z * Z) (thickness : Z) : result image :=
  if point_ok center then Ok (circle_painted img center radius c thickness)
  else Raise Cv2Error.
End Raster.

(** *** Reference definitions for the statements about pixels *)

(** Whether column [x], row [y] lies inside the image. *)
Definition in_bounds (img : image) (p : Z * Z) : bool :=
  (0 <=? fst p) && (fst p <? Z.of_nat (cols img)) &&
  (0 <=? snd p) && (snd p <? Z.of_nat (rows img)).

(** The pixel at column [x], row [y]. *)
Definition pixel_at (img : image) (p : Z * Z) : option pixel :=
  if in_bounds img p
  then buffer img !! Z.to_nat (snd p * Z.of_nat (cols img) + fst p)
  else None.

(** The buffer holds one pixel per position. *)
Definition well_formed (img : image) : Prop :=
  length (buffer img) = (rows img * cols img)%nat.

End Cv2.

(* ===================================================================== *)
(** ** body_tracking.py *)
(* ===================================================================== *)

Module BodyTracking.
Import Np.

(** Container for a single pose landmark in normalized coordinates. *)
Record PoseLandmark : Type := mkPoseLandmark {
  x : float;
  y : float;
  z : float;
  visibility : float
}.

(** Bundle of detected pose landmarks for a single frame. *)
Record PoseResult : Type := mkPoseResult {
  landmarks : list PoseLandmark;
  image_height : Z;
  image_width : Z
}.

(** [np.array([[lm.x, lm.y, lm.z, lm.visibility] for lm in self.landmarks])] *)
Definition as_ndarray (pose : PoseResult) : ndarray :=
  Np.array (map (fun lm => [x lm; y lm; z lm; visibility lm])
                (landmarks pose)).

Section Estimator.
(** [self._mp_pose.process]: the MediaPipe model, from an RGB image to
    [results.pose_landmarks], which is [None] when no body is found and
    a landmark list otherwise. *)
Variable mp_process : image -> option (list PoseLandmark).

(** [PoseEstimator.estimate]; [height, width, _ = frame.shape]. *)
Definition estimate (frame : image) : result (option PoseResult) :=
  let! rgb_frame := Cv2.cvtColor_BGR2RGB frame in
  match mp_process rgb_frame with
  | None => Ok None
  | Some pose_landmarks =>
      let lms := map (fun lm => mkPoseLandmark (x lm) (y lm) (z lm)
                                               (visibility lm))
                     pose_landmarks in
      let height := Z.of_nat (rows frame) in
      let width := Z.of_nat (cols frame) in
      Ok (Some (mkPoseResult lms height width))
  end.

(** [PoseEstimator.batch_estimate], run to exhaustion: the results
    yielded, in order, and how the generator ended ([Raise e] when a call
    of [estimate] raised). *)
Fixpoint batch_estimate (frames : list image)
    : list (option PoseResult) * result unit :=
  match frames with
  | [] => ([], Ok tt)
  | frame :: rest =>
      match estimate frame with
      | Raise e => ([], Raise e)
      | Ok r =>
          let '(rs, fin) := batch_estimate rest in
          (r :: rs, fin)
      end
  end.

(** *** Reference definition: a precondition on the model *)

(** The model, when it detects a body, gives at least one landmark
    (MediaPipe gives 33). *)
Definition model_gives_landmarks : Prop :=
  forall img lms, mp_process img = Some lms -> lms <> [].
End Estimator.

End BodyTracking.

(* ===================================================================== *)
(** ** overlay.py *)
(* ===================================================================== *)

Module Overlay.
Import Np BodyTracking.

Record OverlayColors : Type := mkOverlayColors {
  skeleton : Z * Z * Z;
  joints : Z * Z * Z
}.

Definition default_colors : OverlayColors :=
  mkOverlayColors (0, 255, 0) (0, 128, 255).

(** [OverlayRenderer._default_pairs]: the simplified skeleton connection
    map. *)
Definition default_pairs : list (nat * nat) :=
  [ (11, 12); (12, 14); (14, 16); (11, 13); (13, 15); (11, 23);
    (12, 24); (23, 25); (25, 27); (24, 26); (26, 28) ]%nat.

Section Renderer.
Variable cast_out_of_range : float -> Z.
Variable line_raster : Z * Z -> Z * Z -> Z -> list (Z * Z).
Variable circle_raster : Z * Z -> Z -> Z -> list (Z * Z).
Variable colors : OverlayColors.

(** Lines 29-31 of [render]:
    [coords = np.column_stack((points[:, 0] * width,
                               points[:, 1] * height)).astype(int)],
    the tuple's members evaluated from left to right. *)
Definition pixel_coords (pose : PoseResult) : result (list (Z * Z)) :=
  let height := image_height pose in
  let width := image_width pose in
  let points := as_ndarray pose in
  let! xs := column points 0 in
  let! sx := mul_int xs width in
  let! ys := column points 1 in
  let! sy := mul_int ys height in
  Ok (column_stack_int cast_out_of_range sx sy).

(** [coords[i]] *)
Definition getitem (coords : list (Z * Z)) (i : nat) : result (Z * Z) :=
  match coords !! i with
  | Some p => Ok p
  | None => Raise IndexError
  end.

(** One turn of the loop over [self._pairs]. *)
Definition draw_edge (coords : list (Z * Z)) (annotated : image)
    (edge : nat * nat) : result image :=
  let '(start, end_) := edge in
  if (length coords <=? start)%nat || (length coords <=? end_)%nat
  then Ok annotated
  else
    let! p := getitem coords start in
    let! q := getitem coords end_ in
    Cv2.line line_raster annotated p q (skeleton colors) 2.

(** The loop over [self._pairs].  The drawing is in place: beside the
    outcome, the image as the loop left it, also when a turn raised. *)
Fixpoint draw_edges (coords : list (Z * Z)) (annotated : image)
    (pairs : list (nat * nat)) : result unit * image :=
  match pairs with
  | [] => (Ok tt, annotated)
  | e :: rest =>
      match draw_edge coords annotated e with
      | Ok annotated' => draw_edges coords annotated' rest
      | Raise ex => (Raise ex, annotated)
      end
  end.

(** The loop [for x, y in coords: cv2.circle(annotated, (x, y), 4, ..., -1)],
    in place as well. *)
Fixpoint draw_joints (coords : list (Z * Z)) (annotated : image)
    : result unit * image :=
  match coords with
  | [] => (Ok tt, annotated)
  | c :: rest =>
      match Cv2.circle circle_raster annotated c 4 (joints colors) (-1) with
      | Ok annotated' => draw_joints rest annotated'
      | Raise ex => (Raise ex, annotated)
      end
  end.

(** [OverlayRenderer.render].  The coordinates are computed before the
    frame is copied, so an exception there leaves the heap as it was;
    the drawing calls write into the copy, in place, and an exception of
    theirs leaves the copy as drawn so far. *)
Definition render (frame : loc) (pose : PoseResult) (h : heap)
    : result loc * heap :=
  match pixel_coords pose with
  | Raise e => (Raise e, h)
  | Ok coords =>
      match copy frame h with
      | None => (Raise InvalidRef, h)
      | Some (annotated, h1) =>
          match h1 !! annotated with
          | None => (Raise InvalidRef, h1)
          | Some img =>
              match draw_edges coords img default_pairs with
              | (Raise e, img1) => (Raise e, <[annotated := img1]> h1)
              | (Ok _, img1) =>
                  match draw_joints coords img1 with
                  | (Raise e, img2) => (Raise e, <[annotated := img2]> h1)
                  | (Ok _, img2) => (Ok annotated, <[annotated := img2]> h1)
                  end
              end
          end
      end
  end.

(** [OverlayRenderer.render_sequence], run to exhaustion: the frames
    yielded, in order, and how the generator ended ([Ok tt] when [zip]
    ran out of pairs, [Raise e] when a call of [render] raised). *)
Fixpoint render_sequence (frames : list loc)
    (poses : list (option PoseResult)) (h : heap)
    : list loc * result unit * heap :=
  match frames, poses with
  | frame :: frames', pose :: poses' =>
      match pose with
      | None =>
          let '(out, fin, h') := render_sequence frames' poses' h in
          (frame :: out, fin, h')
      | Some p =>
          match render frame p h with
          | (Ok annotated, h1) =>
              let '(out, fin, h') := render_sequence frames' poses' h1 in
              (annotated :: out, fin, h')
          | (Raise e, h1) => ([], Raise e, h1)
          end
      end
  | _, _ => ([], Ok tt, h)
  end.

(** *** Reference definitions for the statements about [render] *)

(** The pixel position of one landmark: its normalized x and y scaled by
    the recorded width and height, truncated. *)
Definition landmark_px (pose : PoseResult) (lm : PoseLandmark) : Z * Z :=
  (trunc cast_out_of_range (PrimFloat.mul (x lm) (nearest_float (image_width pose))),
   trunc cast_out_of_range (PrimFloat.mul (y lm) (nearest_float (image_height pose)))).

(** Every point can be handed to OpenCV. *)
Definition coords_fit (coords : list (Z * Z)) : bool :=
  forallb Cv2.point_ok coords.

(** A pose result that [render] can draw: the coordinates are computed
    (at least one landmark, width and height within the float64 range) and
    each fits OpenCV's point type. *)
Definition drawable (pose : PoseResult) : bool :=
  match pixel_coords pose with
  | Ok coords => coords_fit coords
  | Raise _ => false
  end.

(** Colour components that a uint8 channel holds as they are. *)
Definition byte_color (c : Z * Z * Z) : bool :=
  let '(b, g, r) := c in
  (0 <=? b) && (b <=? 255) && (0 <=? g) && (g <=? 255) &&
  (0 <=? r) && (r <=? 255).

Definition byte_colors (c : OverlayColors) : bool :=
  byte_color (skeleton c) && byte_color (joints c).

(** The edges of [pairs] with both endpoints among [n] landmarks. *)
Definition in_range (n : nat) (edge : nat * nat) : bool :=
  (fst edge <? n)%nat && (snd edge <? n)%nat.

(** Drawing the segments of the given edges, in order. *)
Definition lines_drawn (coords : list (Z * Z)) (img : image)
    (edges : list (nat * nat)) : image :=
  foldl (fun acc e =>
           Cv2.line_painted line_raster acc (coords !!! fst e)
                            (coords !!! snd e) (skeleton colors) 2)
        img edges.

(** Drawing the circle of every point, in order. *)
Definition joints_drawn (coords : list (Z * Z)) (img : image) : image :=
  foldl (fun acc c =>
           Cv2.circle_painted circle_raster acc c 4 (joints colors) (-1))
        img coords.

(** The frame [render] returns for a drawable pose: the input's pixels
    with the in-range edges drawn, then the joints. *)
Definition annotated_image (pose : PoseResult) (img : image) : image :=
  let coords := map (landmark_px pose) (landmarks pose) in
  joints_drawn coords
    (lines_drawn coords img
       (List.filter (in_range (length (landmarks pose))) default_pairs)).
End Renderer.

End Overlay.

(* ===================================================================== *)
(** ** calibration.py *)
(* ===================================================================== *)

Module Calibration.
Import Np.
Local Open Scope string_scope.

(** Represents intrinsic and extrinsic calibration matrices. *)
Record CalibrationData : Type := mkCalibrationData {
  camera_matrix : ndarray;
  distortion_coeffs : ndarray;
  extrinsics : option ndarray
}.

(** *** NumPy's .npz archives *)

(** What one member of an archive holds.  [np.savez] passes every keyword
    value through [np.asanyarray]: an array is stored as it is, and [None]
    becomes a zero-dimensional array of dtype [object], which is written
    as a pickle. *)
Inductive npy : Type :=
| Numeric (a : ndarray)
| PickledNone.

Definition asanyarray (v : option ndarray) : npy :=
  match v with
  | Some a => Numeric a
  | None => PickledNone
  end.

Abbreviation archive := (gmap string npy).
Abbreviation filesystem := (gmap string (gmap string npy)).

(** [str.endswith] *)
Definition endswith (s suffix : string) : bool :=
  let n := String.length s in
  let k := String.length suffix in
  if (k <=? n)%nat then String.eqb (String.substring (n - k) k s) suffix
  else false.

(** The file name [np.savez] writes to: the extension is appended unless
    the name already carries it. *)
Definition npz_name (path : string) : string :=
  if endswith path ".npz" then path else String.append path ".npz".

(** [np.savez(path, **kwds)]: creates or overwrites the archive. *)
Definition savez (path : string) (kwds : list (string * option ndarray))
    (fs : filesystem) : filesystem :=
  <[npz_name path := list_to_map (map (fun kv => (fst kv, asanyarray (snd kv))) kwds)]> fs.

(** [np.load(path)]: opens the file of exactly that name, with
    [allow_pickle=False]. *)
Definition load (path : string) (fs : filesystem) : result (gmap string npy) :=
  match fs !! path with
  | Some a => Ok a
  | None => Raise FileNotFoundError
  end.

(** [NpzFile.__getitem__]: members are read on access; an object array is
    refused because pickles are not allowed. *)
Definition getitem (a : gmap string npy) (key : string) : result ndarray :=
  match a !! key with
  | None => Raise KeyError
  | Some (Numeric arr) => Ok arr
  | Some PickledNone => Raise ValueError
  end.

(** [NpzFile.get], the [Mapping] mixin: [self[key]], with the default
    [None] on KeyError only. *)
Definition get (a : gmap string npy) (key : string) : result (option ndarray) :=
  match getitem a key with
  | Ok arr => Ok (Some arr)
  | Raise KeyError => Ok None
  | Raise e => Raise e
  end.

(** *** The module's two functions *)

(** Load calibration matrices from a NumPy .npz archive. *)
Definition load_calibration (path : string) (fs : filesystem)
    : result CalibrationData :=
  let! a := load path fs in
  let! cm := getitem a "camera_matrix" in
  let! dc := getitem a "distortion_coeffs" in
  let! ex := get a "extrinsics" in
  Ok (mkCalibrationData cm dc ex).

(** Persist calibration matrices to a NumPy .npz archive. *)
Definition save_calibration (data : CalibrationData) (path : string)
    (fs : filesystem) : filesystem :=
  savez path
        [ ("camera_matrix", Some (camera_matrix data));
          ("distortion_coeffs", Some (distortion_coeffs data));
          ("extrinsics", extrinsics data) ]
        fs.

(** *** Reference definition: the archive [save_calibration] writes *)

Definition saved_archive (data : CalibrationData) : gmap string npy :=
  <["camera_matrix" := Numeric (camera_matrix data)]>
    (<["distortion_coeffs" := Numeric (distortion_coeffs data)]>
       (<["extrinsics" := asanyarray (extrinsics data)]> ∅)).

End Calibration.

(* ===================================================================== *)
(** ** capture.py *)
(* ===================================================================== *)

Module Capture.
Import Np.

(** Stream resolution and framerate configuration. *)
Record StreamProfile : Type := mkStreamProfile {
  width : Z;
  height : Z;
  fps : Z
}.

Definition default_profile : StreamProfile := mkStreamProfile 848 480 30.

(** Configuration for RealSense capture sessions. *)
Record CaptureConfig : Type := mkCaptureConfig {
  color_stream : StreamProfile;
  depth_stream : StreamProfile;
  align_to_color : bool;
  playback_file : option string
}.

Definition default_config : CaptureConfig :=
  mkCaptureConfig default_profile default_profile true None.

(** *** The RealSense SDK, as far as the session uses it *)

Inductive rs_stream : Type := stream_color | stream_depth.
Inductive rs_format : Type := bgr8 | z16.

Record stream_request : Type := mkStreamRequest {
  req_stream : rs_stream;
  req_width : Z;
  req_height : Z;
  req_format : rs_format;
  req_fps : Z
}.

(** [rs.config]: the streams enabled so far and the recording to play
    back, if any, with its [repeat_playback] flag. *)
Record rs_config : Type := mkRsConfig {
  enabled : list stream_request;
  from_file : option (string * bool)
}.

Global Instance rs_stream_eq_dec : EqDecision rs_stream.
Proof. solve_decision. Defined.
Global Instance rs_format_eq_dec : EqDecision rs_format.
Proof. solve_decision. Defined.
Global Instance stream_request_eq_dec : EqDecision stream_request.
Proof. solve_decision. Defined.
Global Instance rs_config_eq_dec : EqDecision rs_config.
Proof. solve_decision. Defined.

Definition enable_stream (r : stream_request) (cfg : rs_config) : rs_config :=
  mkRsConfig (enabled cfg ++ [r]) (from_file cfg).

Definition enable_device_from_file (file : string) (repeat_playback : bool)
    (cfg : rs_config) : rs_config :=
  mkRsConfig (enabled cfg) (Some (file, repeat_playback)).

(** A depth image: 16-bit values, row-major. *)
Record depth_map : Type := mkDepthMap {
  depth_rows : nat;
  depth_cols : nat;
  depth_buffer : list Z
}.

(** A frame handle of the SDK is falsy when it holds no frame. *)
Record frameset : Type := mkFrameset {
  get_color_frame : option image;
  get_depth_frame : option depth_map
}.

Inductive device_event : Type :=
| DevStart (cfg : rs_config)
| DevStop.

Global Instance device_event_eq_dec : EqDecision device_event.
Proof. solve_decision. Defined.

(** [rs.pipeline]: what was done to the device so far, and what the coming
    calls of [wait_for_frames] will deliver (a frameset, or the SDK's
    RuntimeError on a timeout).  The list is a finite look-ahead: when it
    is used up the call is still blocked. *)
Record rs_pipeline : Type := mkPipeline {
  device_log : list device_event;
  incoming : list (result frameset)
}.

(** How often the device was released. *)
Definition releases (p : rs_pipeline) : nat :=
  length (List.filter (fun e => bool_decide (e = DevStop)) (device_log p)).

Section Session.
(** Whether the device (or the recording) named by a configuration can
    be opened; [pipeline.start] raises RuntimeError when it cannot. *)
Variable device_opens : rs_config -> bool.
(** [rs.align(rs.stream.color).process] *)
Variable align_process : frameset -> frameset.

Definition pipeline_start (cfg : rs_config) (p : rs_pipeline)
    : result unit * rs_pipeline :=
  if device_opens cfg
  then (Ok tt, mkPipeline (device_log p ++ [DevStart cfg]) (incoming p))
  else (Raise RuntimeError, p).

Definition pipeline_stop (p : rs_pipeline) : rs_pipeline :=
  mkPipeline (device_log p ++ [DevStop]) (incoming p).

(** Context manager handling RealSense pipelines for live and playback.
    [_align] is [true] when an align processor was built. *)
Record CaptureSession : Type := mkCaptureSession {
  _config : CaptureConfig;
  _pipeline : rs_pipeline;
  _align : bool;
  _started : bool
}.

(** [CaptureSession.__init__] around a fresh pipeline. *)
Definition init (config : CaptureConfig) (p : rs_pipeline) : CaptureSession :=
  mkCaptureSession config p (align_to_color config) false.

(** The [rs.config] that [start] builds. *)
Definition build_config (c : CaptureConfig) : rs_config :=
  let cfg := mkRsConfig [] None in
  let cfg := enable_stream
               (mkStreamRequest stream_color (width (color_stream c))
                  (height (color_stream c)) bgr8 (fps (color_stream c)))
               cfg in
  let cfg := enable_stream
               (mkStreamRequest stream_depth (width (depth_stream c))
                  (height (depth_stream c)) z16 (fps (depth_stream c)))
               cfg in
  match playback_file c with
  | Some file => enable_device_from_file file true cfg
  | None => cfg
  end.

Definition start (s : CaptureSession) : result unit * CaptureSession :=
  if _started s then (Ok tt, s)
  else
    let cfg := build_config (_config s) in
    match pipeline_start cfg (_pipeline s) with
    | (Raise e, p) =>
        (Raise e, mkCaptureSession (_config s) p (_align s) (_started s))
    | (Ok _, p) =>
        (Ok tt, mkCaptureSession (_config s) p (_align s) true)
    end.

Definition stop (s : CaptureSession) : CaptureSession :=
  if negb (_started s) then s
  else
    let p := pipeline_stop (_pipeline s) in
    mkCaptureSession (_config s) p (_align s) false.

(** *** The generator [frames] *)

(** What one call of [next] on a generator gives. *)
Inductive step (A : Type) : Type :=
| Yielded (a : A)
| Raised (e : exn)
| StopIteration
| Waiting.   (* still blocked in [wait_for_frames] at the look-ahead's end *)
Global Arguments Yielded {A} a.
Global Arguments Raised {A} e.
Global Arguments StopIteration {A}.
Global Arguments Waiting {A}.

(** Where a generator object stands: not yet run (the body, and with it
    the check of [_started], runs at the first [next]), suspended at its
    [yield], or finished. *)
Inductive gen_state : Type := Created | Suspended | Finished.

(** The [while True] loop from its head to the next [yield] or
    exception: framesets lacking a component are passed over. *)
Fixpoint wait_pair (align : bool) (inc : list (result frameset))
    : step (image * depth_map) * list (result frameset) :=
  match inc with
  | [] => (Waiting, [])
  | Raise e :: rest => (Raised e, rest)
  | Ok fs :: rest =>
      let fs := if align then align_process fs else fs in
      match get_color_frame fs, get_depth_frame fs with
      | Some color, Some depth => (Yielded (color, depth), rest)
      | _, _ => wait_pair align rest
      end
  end.

Definition resume (s : CaptureSession)
    : step (image * depth_map) * gen_state * CaptureSession :=
  let '(st, inc) := wait_pair (_align s) (incoming (_pipeline s)) in
  let s' := mkCaptureSession (_config s)
              (mkPipeline (device_log (_pipeline s)) inc)
              (_align s) (_started s) in
  match st with
  | Yielded v => (Yielded v, Suspended, s')
  | Raised e => (Raised e, Finished, s')
  | StopIteration => (StopIteration, Finished, s')
  | Waiting => (Waiting, Suspended, s')
  end.

(** [session.frames()]: calling a generator function runs none of its
    body, so nothing is checked and nothing raised; the result is a
    generator that has not run yet. *)
Definition frames (s : CaptureSession) : result gen_state := Ok Created.

(** [next(g)] for a generator [g = session.frames()]. *)
Definition next (g : gen_state) (s : CaptureSession)
    : step (image * depth_map) * gen_state * CaptureSession :=
  match g with
  | Finished => (StopIteration, Finished, s)
  | Created =>
      if negb (_started s) then (Raised RuntimeError, Finished, s)
      else resume s
  | Suspended => resume s
  end.

(** [n] successive calls of [next]: what each gave, and the generator
    and session reached. *)
Fixpoint pulls (n : nat) (g : gen_state) (s : CaptureSession)
    : list (step (image * depth_map)) * gen_state * CaptureSession :=
  match n with
  | O => ([], g, s)
  | S n' =>
      let '(st, g1, s1) := next g s in
      let '(sts, g2, s2) := pulls n' g1 s1 in
      (st :: sts, g2, s2)
  end.

Definition yields {A} (sts : list (step A)) : list A :=
  omap (fun st => match st with Yielded a => Some a | _ => None end) sts.

(** [playback]: convenience helper to build a playback session from a
    .bag recording, [CaptureSession(CaptureConfig(playback_file=file_path))]. *)
Definition playback (file_path : string) (p : rs_pipeline) : CaptureSession :=
  init (mkCaptureConfig default_profile default_profile true (Some file_path)) p.

(** *** Reference definitions for the statements about [frames] *)

(** A frameset as the loop body sees it. *)
Definition view (align : bool) (fs : frameset) : frameset :=
  if align then align_process fs else fs.

(** The pairs of the deliveries that come with both components, up to the
    first delivery that is an exception. *)
Fixpoint complete_pairs (align : bool) (inc : list (result frameset))
    : list (image * depth_map) :=
  match inc with
  | [] => []
  | Raise _ :: _ => []
  | Ok fs :: rest =>
      match get_color_frame (view align fs), get_depth_frame (view align fs) with
      | Some color, Some depth => (color, depth) :: complete_pairs align rest
      | _, _ => complete_pairs align rest
      end
  end.

(** *** The session as a context manager *)

Inductive method : Type := M_start | M_stop.

Global Instance method_eq_dec : EqDecision method.
Proof. solve_decision. Defined.

(** The session together with the record of the calls made to its
    [start] and [stop] (an observer's record, not a field of the
    object). *)
Record world : Type := mkWorld {
  session : CaptureSession;
  calls : list method
}.

Definition stop_calls (w : world) : nat :=
  length (List.filter (fun m => bool_decide (m = M_stop)) (calls w)).

Definition call_start (w : world) : result unit * world :=
  let '(r, s) := start (session w) in
  (r, mkWorld s (calls w ++ [M_start])).

Definition call_stop (w : world) : world :=
  mkWorld (stop (session w)) (calls w ++ [M_stop]).

(** [__enter__]: [self.start(); return self]. *)
Definition enter (w : world) : result unit * world := call_start w.

(** [__exit__]: [self.stop()]; returns [None], so an exception of the
    body is not suppressed. *)
Definition exit (w : world) : world := call_stop w.

(** [with session: body]: when [__enter__] raises the body is not run
    and [__exit__] is not called; otherwise [__exit__] is called when the
    body is left, by return or by exception, and the body's outcome is
    the statement's. *)
Definition with_session {R} (w : world)
    (body : world -> result R * world) : result R * world :=
  match enter w with
  | (Raise e, w1) => (Raise e, w1)
  | (Ok _, w1) =>
      let '(r, w2) := body w1 in
      (r, exit w2)
  end.
End Session.

End Capture.

(* ===================================================================== *)
(** ** Properties of the drawing primitives *)
(* ===================================================================== *)

Module Cv2Facts.
Import Np Cv2.

Lemma put_pixel_dims c img p : dims (put_pixel c img p) = dims img.
Proof.
  destruct p as [px py]. unfold put_pixel.
  destruct (_ && _); reflexivity.
Qed.

Lemma paint_dims c ps : forall img, dims (paint c img ps) = dims img.
Proof.
  unfold paint. induction ps as [|p ps IH]; intros img; simpl.
  - reflexivity.
  - rewrite IH. apply put_pixel_dims.
Qed.

Lemma line_dims lr img p q c t : dims (line_painted lr img p q c t) = dims img.
Proof. apply paint_dims. Qed.

Lemma circle_dims cr img p r c t :
  dims (circle_painted cr img p r c t) = dims img.
Proof. apply paint_dims. Qed.

Lemma put_pixel_buffer_length c img p :
  length (buffer (put_pixel c img p)) = length (buffer img).
Proof.
  destruct p as [px py]. unfold put_pixel.
  destruct (_ && _); simpl; [apply length_insert | reflexivity].
Qed.

End Cv2Facts.

(* ===================================================================== *)
(** ** overlay.py: what [render] and [render_sequence] do *)
(* ===================================================================== *)

Module OverlayFacts.
Import Np BodyTracking Overlay Cv2Facts.

Section Renderer.
Variable cast_out_of_range : float -> Z.
Variable line_raster : Z * Z -> Z * Z -> Z -> list (Z * Z).
Variable circle_raster : Z * Z -> Z -> Z -> list (Z * Z).
Variable colors : OverlayColors.

Abbreviation pixel_coords := (pixel_coords cast_out_of_range).
Abbreviation draw_edge := (draw_edge line_raster colors).
Abbreviation draw_edges := (draw_edges line_raster colors).
Abbreviation draw_joints := (draw_joints circle_raster colors).
Abbreviation render := (render cast_out_of_range line_raster circle_raster colors).
Abbreviation landmark_px := (landmark_px cast_out_of_range).
Abbreviation drawable := (drawable cast_out_of_range).
Abbreviation lines_drawn := (lines_drawn line_raster colors).
Abbreviation joints_drawn := (joints_drawn circle_raster colors).
Abbreviation annotated_image :=
  (annotated_image cast_out_of_range line_raster circle_raster colors).
Abbreviation render_sequence :=
  (render_sequence cast_out_of_range line_raster circle_raster colors).

Lemma as_ndarray_nil h w : as_ndarray (mkPoseResult [] h w) = Array1 [].
Proof. reflexivity. Qed.

Lemma as_ndarray_shape pose :
  landmarks pose <> [] ->
  shape (as_ndarray pose) = [length (landmarks pose); 4%nat].
Proof.
  destruct pose as [lms h w]; simpl. destruct lms as [|lm lms]; [done|].
  intros _. unfold as_ndarray; simpl. by rewrite length_map.
Qed.

(** With no landmark the array has rank one and [points[:, 0]] raises. *)
Lemma pixel_coords_nil h w :
  pixel_coords (mkPoseResult [] h w) = Raise IndexError.
Proof. reflexivity. Qed.

Lemma column_stack_landmarks pose (lms : list PoseLandmark) :
  column_stack_int cast_out_of_range
    (map (fun a => PrimFloat.mul a (nearest_float (image_width pose)))
         (map (fun r => nth 0 r 0%float)
              (map (fun lm => [x lm; y lm; z lm; visibility lm]) lms)))
    (map (fun a => PrimFloat.mul a (nearest_float (image_height pose)))
         (map (fun r => nth 1 r 0%float)
              (map (fun lm => [x lm; y lm; z lm; visibility lm]) lms)))
  = map (landmark_px pose) lms.
Proof.
  unfold column_stack_int.
  induction lms as [|lm lms IH]; simpl; [reflexivity|].
  f_equal. exact IH.
Qed.

(** What lines 29-31 compute: IndexError without landmarks, OverflowError
    when the width or the height is beyond the float64 range, and
    otherwise the scaled position of each landmark, one row each. *)
Lemma pixel_coords_eq pose :
  pixel_coords pose =
  match landmarks pose with
  | [] => Raise IndexError
  | _ :: _ =>
      if fits_float64 (image_width pose) && fits_float64 (image_height pose)
      then Ok (map (landmark_px pose) (landmarks pose))
      else Raise OverflowError
  end.
Proof.
  destruct pose as [lms h w]; simpl. destruct lms as [|lm lms]; [reflexivity|].
  unfold Overlay.pixel_coords, as_ndarray, mul_int, float_of_int.
  cbn [landmarks image_height image_width map Np.array column Py.bind
       length Nat.ltb Nat.leb].
  destruct (fits_float64 w); [|reflexivity].
  cbn [Py.bind andb].
  destruct (fits_float64 h); [|reflexivity].
  cbn [Py.bind]. f_equal.
  exact (column_stack_landmarks (mkPoseResult (lm :: lms) h w) (lm :: lms)).
Qed.

(** A drawable pose has a landmark, and its coordinates are the scaled
    positions of its landmarks, each fitting OpenCV's point type. *)
Lemma drawable_coords pose :
  drawable pose = true ->
  landmarks pose <> [] /\
  pixel_coords pose = Ok (map (landmark_px pose) (landmarks pose)) /\
  coords_fit (map (landmark_px pose) (landmarks pose)) = true.
Proof.
  unfold Overlay.drawable. rewrite pixel_coords_eq.
  destruct (landmarks pose) as [|lm lms]; [discriminate|].
  destruct (_ && _); [|discriminate]. by intros H.
Qed.

(** In plain terms: drawable means at least one landmark, a width and a
    height within the float64 range, and scaled positions that all fit
    OpenCV's point type. *)
Lemma drawable_iff pose :
  drawable pose = true <->
  landmarks pose <> [] /\
  fits_float64 (image_width pose) = true /\
  fits_float64 (image_height pose) = true /\
  coords_fit (map (landmark_px pose) (landmarks pose)) = true.
Proof.
  unfold Overlay.drawable. rewrite pixel_coords_eq.
  destruct (landmarks pose) as [|lm lms] eqn:Hl.
  - split; [discriminate|]. by intros [? _].
  - destruct (fits_float64 (image_width pose)),
             (fits_float64 (image_height pose)); simpl; split;
      try discriminate; try (by intros (_ & ? & ? & _)).
    + intros H. by repeat split.
    + by intros (_ & _ & _ & H).
Qed.

Lemma coords_fit_lookup (coords : list (Z * Z)) i p :
  coords_fit coords = true -> coords !! i = Some p -> Cv2.point_ok p = true.
Proof.
  unfold coords_fit. rewrite forallb_forall. intros H Hp.
  apply H. apply list_elem_of_In. by eapply list_elem_of_lookup_2.
Qed.

(** The guard of the edge loop: an edge with an endpoint out of range is
    passed over, any other is drawn; with points that fit no turn of the
    loop raises. *)
Lemma draw_edge_spec coords img e :
  coords_fit coords = true ->
  draw_edge coords img e =
  Ok (if in_range (length coords) e then lines_drawn coords img [e] else img).
Proof.
  intros Hfit.
  destruct e as [s t]. unfold Overlay.draw_edge, in_range, Overlay.lines_drawn; simpl.
  destruct (Nat.leb_spec (length coords) s) as [Hs|Hs]; simpl.
  - replace (s <? length coords)%nat with false; [done|].
    symmetry. apply Nat.ltb_ge. lia.
  - replace (s <? length coords)%nat with true
      by (symmetry; apply Nat.ltb_lt; lia). simpl.
    destruct (Nat.leb_spec (length coords) t) as [Ht|Ht]; simpl.
    + replace (t <? length coords)%nat with false; [done|].
      symmetry. apply Nat.ltb_ge. lia.
    + replace (t <? length coords)%nat with true
        by (symmetry; apply Nat.ltb_lt; lia).
      unfold getitem.
      destruct (lookup_lt_is_Some_2 coords s Hs) as [p Hp].
      destruct (lookup_lt_is_Some_2 coords t Ht) as [q Hq].
      rewrite Hp, Hq; simpl. unfold Cv2.line.
      rewrite (coords_fit_lookup _ _ _ Hfit Hp), (coords_fit_lookup _ _ _ Hfit Hq).
      simpl.
      by rewrite (list_lookup_total_correct _ _ _ Hp),
                 (list_lookup_total_correct _ _ _ Hq).
Qed.

Lemma draw_edges_spec coords pairs : forall img,
  coords_fit coords = true ->
  draw_edges coords img pairs =
  (Ok tt, lines_drawn coords img (List.filter (in_range (length coords)) pairs)).
Proof.
  induction pairs as [|e pairs IH]; intros img Hfit; simpl; [reflexivity|].
  rewrite (draw_edge_spec _ _ _ Hfit). rewrite (IH _ Hfit).
  destruct (in_range (length coords) e); reflexivity.
Qed.

Lemma draw_joints_spec coords : forall img,
  coords_fit coords = true ->
  draw_joints coords img = (Ok tt, joints_drawn coords img).
Proof.
  induction coords as [|c coords IH]; intros img Hfit; simpl; [reflexivity|].
  simpl in Hfit. apply andb_true_iff in Hfit as [Hc Hfit].
  unfold Cv2.circle. rewrite Hc. by rewrite (IH _ Hfit).
Qed.

(** A point that does not fit makes the joint loop raise cv2.error. *)
Lemma draw_joints_raises coords : forall img,
  coords_fit coords = false ->
  exists img', draw_joints coords img = (Raise Cv2Error, img').
Proof.
  induction coords as [|c coords IH]; intros img Hfit; simpl in *; [discriminate|].
  unfold Cv2.circle. destruct (Cv2.point_ok c); simpl in Hfit.
  - apply IH, Hfit.
  - by exists img.
Qed.

Lemma lines_drawn_dims coords edges : forall img,
  dims (lines_drawn coords img edges) = dims img.
Proof.
  unfold Overlay.lines_drawn. induction edges as [|e edges IH]; intros img; simpl.
  - reflexivity.
  - rewrite IH. apply line_dims.
Qed.

Lemma joints_drawn_dims coords : forall img,
  dims (joints_drawn coords img) = dims img.
Proof.
  unfold Overlay.joints_drawn. induction coords as [|c coords IH]; intros img; simpl.
  - reflexivity.
  - rewrite IH. apply circle_dims.
Qed.

Lemma annotated_image_dims pose img :
  dims (annotated_image pose img) = dims img.
Proof.
  unfold Overlay.annotated_image. rewrite joints_drawn_dims. apply lines_drawn_dims.
Qed.

(** [render] on a drawable pose: it returns a reference that was not
    allocated before, holding the annotated copy, and writes nowhere
    else. *)
Lemma render_drawable frame pose (h : gmap positive image) img :
  drawable pose = true ->
  h !! frame = Some img ->
  render frame pose h =
  (Ok (fresh (dom h)), <[fresh (dom h) := annotated_image pose img]> h).
Proof.
  intros Hd Hf. destruct (drawable_coords pose Hd) as (Hne & Hpc & Hfit).
  unfold Overlay.render. rewrite Hpc. unfold copy, alloc. rewrite Hf.
  rewrite lookup_insert_eq. rewrite (draw_edges_spec _ _ _ Hfit).
  rewrite (draw_joints_spec _ _ Hfit).
  rewrite insert_insert_eq. unfold Overlay.annotated_image.
  by rewrite length_map.
Qed.

(** [render] returns only on a drawable pose. *)
Lemma render_ok_drawable frame pose (h : gmap positive image) :
  Py.is_ok (render frame pose h).1 = true -> drawable pose = true.
Proof.
  unfold Overlay.render, Overlay.drawable.
  destruct (pixel_coords pose) as [coords|e]; [|discriminate].
  destruct (copy frame h) as [[a h1]|]; [|discriminate].
  destruct (h1 !! a) as [img|]; [|discriminate].
  destruct (draw_edges coords img default_pairs) as [[[]|e] img1]; [|discriminate].
  destruct (coords_fit coords) eqn:Hfit; [done|].
  destruct (draw_joints_raises coords img1 Hfit) as [img2 ->]. discriminate.
Qed.

(** [render] on a pose without landmarks raises IndexError before the frame
    is copied. *)
Lemma render_nil frame h w (hp : gmap positive image) :
  render frame (mkPoseResult [] h w) hp = (Raise IndexError, hp).
Proof. reflexivity. Qed.

(** With 29 landmarks or more no edge of the fixed set is left out. *)
Lemma all_edges_in_range n :
  (29 <= n)%nat -> List.filter (in_range n) default_pairs = default_pairs.
Proof.
  intros Hn. unfold default_pairs, in_range. simpl.
  repeat match goal with
  | |- context [(?k <? n)%nat] =>
      replace (k <? n)%nat with true by (symmetry; apply Nat.ltb_lt; lia)
  end.
  reflexivity.
Qed.

(** With 13 landmarks only the shoulder edge has both endpoints. *)
Example edges_for_13_landmarks :
  List.filter (in_range 13) default_pairs = [(11, 12)]%nat.
Proof. reflexivity. Qed.

(** An edge is drawn by [render] exactly when both its endpoints are
    landmarks of the pose. *)
Lemma edge_kept_iff n (e : nat * nat) :
  e ∈ List.filter (in_range n) default_pairs <->
  e ∈ default_pairs /\ (fst e < n)%nat /\ (snd e < n)%nat.
Proof.
  rewrite !list_elem_of_In, filter_In. unfold in_range.
  rewrite andb_true_iff, !Nat.ltb_lt. reflexivity.
Qed.

(** *** [render_sequence] when every call of [render] returns *)

(** A pose, if there is one, is drawable. *)
Definition renderable (pose : option PoseResult) : Prop :=
  match pose with
  | Some p => drawable p = true
  | None => True
  end.

Lemma render_sequence_zip frames : forall poses (h : gmap positive image),
  Forall (fun f => is_Some (h !! f)) frames ->
  Forall renderable poses ->
  exists out h',
    render_sequence frames poses h = (out, Ok tt, h') /\
    length out = Nat.min (length frames) (length poses) /\
    (h ⊆ h') /\
    (forall k frame pose,
      frames !! k = Some frame -> poses !! k = Some pose ->
      match pose with
      | None => out !! k = Some frame
      | Some p =>
          exists annotated img,
            out !! k = Some annotated /\ (annotated ∉ dom h) /\
            h !! frame = Some img /\
            h' !! annotated = Some (annotated_image p img)
      end).
Proof.
  induction frames as [|f frames IH]; intros poses h Hfr Hps.
  { exists [], h. simpl. repeat split; try done. }
  destruct poses as [|p poses].
  { exists [], h. simpl. repeat split; try done. }
  apply Forall_cons in Hfr as [[img Hf] Hfr].
  apply Forall_cons in Hps as [Hp Hps].
  destruct p as [p|]; simpl in Hp.
  - (* a pose: the frame is rendered into a fresh copy *)
    set (l := fresh (dom h)).
    set (h1 := <[l := annotated_image p img]> h).
    assert (Hl : h !! l = None) by (apply not_elem_of_dom, is_fresh).
    assert (Hsub : h ⊆ h1) by (by apply insert_subseteq).
    assert (Hfr1 : Forall (fun f => is_Some (h1 !! f)) frames).
    { eapply Forall_impl; [exact Hfr|]. intros f' [i Hi]. exists i.
      eapply lookup_weaken; eauto. }
    destruct (IH poses h1 Hfr1 Hps) as (out & h' & Hrs & Hlen & Hsub' & Hk).
    exists (l :: out), h'. cbn [Overlay.render_sequence].
    rewrite (render_drawable f p h img Hp Hf). fold l. fold h1. rewrite Hrs.
    split; [reflexivity|]. split; [simpl; by rewrite Hlen|].
    split; [by etrans|].
    intros [|k] frame pose Hfk Hpk; simpl in Hfk, Hpk.
    + injection Hfk as <-. injection Hpk as <-.
      exists l, img. repeat split; try done.
      * by apply not_elem_of_dom.
      * eapply lookup_weaken; [|exact Hsub']. apply lookup_insert_eq.
    + specialize (Hk k frame pose Hfk Hpk). destruct pose as [q|]; [|exact Hk].
      destruct Hk as (a & img' & Ho & Ha & Hfi & Hh).
      exists a, img'. repeat split; try done.
      * intros Hin. apply Ha. apply elem_of_dom.
        apply elem_of_dom in Hin as [i Hi]. exists i.
        eapply lookup_weaken; eauto.
      * assert (Hin : is_Some (h !! frame)).
        { eapply Forall_lookup_1 in Hfr; eauto. }
        destruct Hin as [i Hi].
        pose proof (lookup_weaken _ _ _ _ Hi Hsub) as Hi1. congruence.
  - (* no pose: the frame itself is yielded *)
    destruct (IH poses h Hfr Hps) as (out & h' & Hrs & Hlen & Hsub' & Hk).
    exists (f :: out), h'. cbn [Overlay.render_sequence]. rewrite Hrs.
    split; [reflexivity|]. split; [simpl; by rewrite Hlen|].
    split; [done|].
    intros [|k] frame pose Hfk Hpk; simpl in Hfk, Hpk.
    + injection Hfk as <-. injection Hpk as <-. reflexivity.
    + exact (Hk k frame pose Hfk Hpk).
Qed.

(** C1.  [render] on a pose result without landmarks does not complete: for
    every frame, every recorded image size and every heap it raises
    IndexError, because [as_ndarray] then gives an array of rank one and
    [points[:, 0]] indexes it with two indices.  (On a drawable pose result
    [render] returns and leaves out exactly the edges with an endpoint out
    of range: [render_drawable], [edge_kept_iff].) *)
Theorem render_without_landmarks_raises :
  forall (frame : positive) (ph pw : Z) (h : gmap positive image),
    render frame (mkPoseResult [] ph pw) h = (Raise IndexError, h).
Proof. intros. apply render_nil. Qed.

(** C4.  [render] does not return a frame for every pose result: on a 2 x 2
    frame and a pose result without landmarks no annotated frame is
    returned and nothing is allocated.  (On a drawable pose result a new
    frame of the input's size is returned and the input is left as it was:
    [render_drawable].) *)
Theorem render_returns_no_frame_without_landmarks :
  let black := Image 2 2 (replicate 4 (0, 0, 0)) in
  let h : gmap positive image := {[ 1%positive := black ]} in
  let outcome := render 1%positive (mkPoseResult [] 2 2) h in
  Py.is_ok (fst outcome) = false /\
  dom (snd outcome) = dom h /\
  snd outcome !! 1%positive = Some black.
Proof. cbv zeta. rewrite render_nil. simpl. by rewrite lookup_singleton_eq. Qed.

(** C5.  [render_sequence] over one frame and one pose result without
    landmarks yields nothing, although both sequences have length one: the
    generator ends with the IndexError of [render].  (When every pose
    result is drawable the outputs are as many as the shorter sequence,
    the frame itself where the pose is [None] and the rendered copy
    elsewhere: [render_sequence_zip].) *)
Theorem render_sequence_stops_at_pose_without_landmarks :
  forall (frame : positive) (ph pw : Z) (h : gmap positive image),
    render_sequence [frame] [Some (mkPoseResult [] ph pw)] h
    = ([], Raise IndexError, h).
Proof. intros. reflexivity. Qed.

End Renderer.
End OverlayFacts.

(* ===================================================================== *)
(** ** calibration.py: archives written and read back *)
(* ===================================================================== *)

Module CalibrationFacts.
Import Np Calibration.
Local Open Scope string_scope.

Lemma save_calibration_lookup data path (fs : gmap string (gmap string npy)) :
  save_calibration data path fs !! npz_name path = Some (saved_archive data).
Proof. unfold save_calibration, savez. by rewrite lookup_insert_eq. Qed.

Lemma npz_name_id path : endswith path ".npz" = true -> npz_name path = path.
Proof. unfold npz_name. by intros ->. Qed.

(** An archive name that already carries the extension and array-valued
    extrinsics: what was saved is read back. *)
Lemma load_save_with_extrinsics cm dc ex path (fs : gmap string (gmap string npy)) :
  endswith path ".npz" = true ->
  load_calibration path (save_calibration (mkCalibrationData cm dc (Some ex)) path fs)
  = Ok (mkCalibrationData cm dc (Some ex)).
Proof.
  intros Hp. unfold load_calibration, load.
  rewrite <- (npz_name_id path Hp) at 1. rewrite save_calibration_lookup.
  reflexivity.
Qed.

(** Without the extension the archive is written under another name than
    the one [load_calibration] opens. *)
Lemma load_save_other_name data :
  load_calibration "calib" (save_calibration data "calib" ∅)
  = Raise FileNotFoundError.
Proof. reflexivity. Qed.

(** C2.  [load_calibration] after [save_calibration] does not return the
    matrices when the extrinsics are [None]: the archive then holds a
    pickled object array under "extrinsics", and reading it back raises
    ValueError.  This holds for every pair of matrices, every path and every
    file system, read back under the name the archive was written to, and
    in particular for the path "calib.npz". *)
Theorem load_after_save_without_extrinsics_raises :
  (forall cm dc path (fs : gmap string (gmap string npy)),
     load_calibration (npz_name path)
       (save_calibration (mkCalibrationData cm dc None) path fs)
     = Raise ValueError) /\
  (forall cm dc (fs : gmap string (gmap string npy)),
     load_calibration "calib.npz"
       (save_calibration (mkCalibrationData cm dc None) "calib.npz" fs)
     = Raise ValueError).
Proof.
  assert (H : forall cm dc path (fs : gmap string (gmap string npy)),
     load_calibration (npz_name path)
       (save_calibration (mkCalibrationData cm dc None) path fs)
     = Raise ValueError).
  { intros. unfold load_calibration, load.
    rewrite save_calibration_lookup. reflexivity. }
  split; [exact H|]. intros cm dc fs. exact (H cm dc "calib.npz" fs).
Qed.

(** C10.  The archive written by [save_calibration] has exactly the three
    keys; under "extrinsics" it holds what [np.asanyarray] makes of the
    field, which is [PickledNone] when the field is [None]; and neither
    [NpzFile.get] nor [load_calibration] on that archive finds the key
    missing. *)
Theorem save_calibration_always_writes_extrinsics :
  forall data path (fs : gmap string (gmap string npy)),
  exists a : gmap string npy,
    save_calibration data path fs !! npz_name path = Some a /\
    dom a = ({["camera_matrix"; "distortion_coeffs"; "extrinsics"]} : gset string) /\
    a !! "extrinsics" = Some (asanyarray (extrinsics data)) /\
    getitem a "extrinsics" <> Raise KeyError /\
    get a "extrinsics" <> Ok None /\
    load_calibration (npz_name path) (save_calibration data path fs)
      <> Raise KeyError.
Proof.
  intros data path fs. exists (saved_archive data).
  split; [apply save_calibration_lookup|].
  split.
  { unfold saved_archive. rewrite !dom_insert_L, dom_empty_L. set_solver. }
  split; [reflexivity|].
  unfold load_calibration, load. rewrite save_calibration_lookup.
  destruct data as [cm dc [ex|]]; repeat split; discriminate.
Qed.

End CalibrationFacts.

(* ===================================================================== *)
(** ** body_tracking.py: the size recorded by [estimate] *)
(* ===================================================================== *)

Module EstimateFacts.
Import Np BodyTracking Overlay.

(** C9.  When [estimate] returns a pose result for a frame, the recorded
    image height and width are the frame's row and column counts, and the
    coordinates lines 29-31 of [render] compute from that result are the
    landmarks' normalized x and y scaled by the frame's own width and
    height and truncated, one row per landmark.  (Without any landmark
    there is nothing to scale and the IndexError of [render] is raised; a
    size beyond the float64 range, which no array has, gives
    OverflowError.) *)
Theorem estimate_records_frame_size :
  forall (mp_process : image -> option (list PoseLandmark))
         (cast_out_of_range : float -> Z) (frame : image) (pose : PoseResult),
    estimate mp_process frame = Ok (Some pose) ->
    image_height pose = Z.of_nat (rows frame) /\
    image_width pose = Z.of_nat (cols frame) /\
    pixel_coords cast_out_of_range pose =
    match landmarks pose with
    | [] => Raise IndexError
    | _ :: _ =>
        if fits_float64 (Z.of_nat (cols frame)) &&
           fits_float64 (Z.of_nat (rows frame))
        then
          Ok (map (fun lm =>
                     (trunc cast_out_of_range
                        (PrimFloat.mul (x lm)
                           (nearest_float (Z.of_nat (cols frame)))),
                      trunc cast_out_of_range
                        (PrimFloat.mul (y lm)
                           (nearest_float (Z.of_nat (rows frame))))))
                  (landmarks pose))
        else Raise OverflowError
    end.
Proof.
  intros mp cast frame pose He. unfold estimate in He.
  destruct (Cv2.cvtColor_BGR2RGB frame) as [rgb|e]; [|discriminate].
  simpl in He.
  destruct (mp rgb) as [lms|]; [|discriminate].
  injection He as <-. cbn [image_height image_width landmarks].
  split; [reflexivity|]. split; [reflexivity|].
  rewrite OverlayFacts.pixel_coords_eq. reflexivity.
Qed.

Lemma estimate_records_frame_size_witness :
  let mp := fun _ : image => Some [mkPoseLandmark 0.5 0.25 0 1] in
  let frame := Image 2 4 (replicate 8 (0, 0, 0)) in
  let pose := mkPoseResult [mkPoseLandmark 0.5 0.25 0 1] 2 4 in
  estimate mp frame = Ok (Some pose) /\
  image_height pose = 2 /\ image_width pose = 4 /\
  pixel_coords (fun _ => int64_min) pose = Ok [(2, 0)].
Proof.
  cbv zeta. split; [reflexivity|].
  destruct (estimate_records_frame_size
              (fun _ : image => Some [mkPoseLandmark 0.5 0.25 0 1])
              (fun _ => int64_min) (Image 2 4 (replicate 8 (0, 0, 0)))
              (mkPoseResult [mkPoseLandmark 0.5 0.25 0 1] 2 4)
              eq_refl) as (Hh & Hw & Hc).
  split; [exact Hh|]. split; [exact Hw|]. rewrite Hc. vm_compute. reflexivity.
Defined.

End EstimateFacts.

(* ===================================================================== *)
(** ** capture.py: lifecycle, frames, scoped use *)
(* ===================================================================== *)

Module CaptureFacts.
Import Np Capture.

Section Session.
Variable device_opens : rs_config -> bool.
Variable align_process : frameset -> frameset.

Abbreviation start := (start device_opens).
Abbreviation view := (view align_process).
Abbreviation complete_pairs := (complete_pairs align_process).
Abbreviation wait_pair := (wait_pair align_process).
Abbreviation resume := (resume align_process).
Abbreviation next := (next align_process).
Abbreviation pulls := (pulls align_process).
Abbreviation enter := (enter device_opens).
Abbreviation with_session := (with_session device_opens).

(** *** The loop of [frames] *)

(** A frameset lacking a component is passed over: the loop goes on with
    the next delivery, without a yield and without an exception. *)
Lemma wait_pair_skips align fs rest :
  get_color_frame (view align fs) = None \/
  get_depth_frame (view align fs) = None ->
  wait_pair align (Ok fs :: rest) = wait_pair align rest.
Proof.
  unfold Capture.view. intros H. simpl.
  destruct (get_color_frame _), (get_depth_frame _); destruct H; congruence.
Qed.

Lemma wait_pair_spec align inc :
  match wait_pair align inc with
  | (Yielded v, rest) => complete_pairs align inc = v :: complete_pairs align rest
  | (Raised _, _) => complete_pairs align inc = []
  | (Waiting, rest) => complete_pairs align inc = [] /\ rest = []
  | (StopIteration, _) => False
  end.
Proof.
  induction inc as [|[fs|e] inc IH]; simpl; [done| |done].
  unfold Capture.view.
  destruct (get_color_frame _) as [c|]; [|exact IH].
  destruct (get_depth_frame _) as [d|]; [done|exact IH].
Qed.

(** Every complete pair comes from a delivered frameset that has both
    components. *)
Lemma complete_pairs_origin align inc color depth :
  (color, depth) ∈ complete_pairs align inc ->
  exists fs, Ok fs ∈ inc /\
    get_color_frame (view align fs) = Some color /\
    get_depth_frame (view align fs) = Some depth.
Proof.
  induction inc as [|[fs|e] inc IH]; simpl; intros Hin.
  - by apply elem_of_nil in Hin.
  - destruct (get_color_frame (view align fs)) as [c|] eqn:Hc;
      [destruct (get_depth_frame (view align fs)) as [d|] eqn:Hd|].
    + apply elem_of_cons in Hin as [Heq|Hin].
      * injection Heq as -> ->. exists fs. split; [left|done].
      * destruct (IH Hin) as (fs' & ? & ?). exists fs'. split; [by right|done].
    + destruct (IH Hin) as (fs' & ? & ?). exists fs'. split; [by right|done].
    + destruct (IH Hin) as (fs' & ? & ?). exists fs'. split; [by right|done].
  - by apply elem_of_nil in Hin.
Qed.

Lemma pulls_finished n s :
  pulls n Finished s = (replicate n StopIteration, Finished, s).
Proof.
  induction n as [|n IH]; simpl; [reflexivity|]. by rewrite IH.
Qed.

Lemma yields_replicate_stop {A} n :
  yields (replicate n (@StopIteration A)) = [].
Proof. induction n as [|n IH]; simpl; [reflexivity|exact IH]. Qed.

(** The yields of [n] calls of [next] on a generator that is inside its
    loop: the first [n] complete pairs. *)
Lemma pulls_suspended n : forall s,
  yields (pulls n Suspended s).1.1 =
  take n (complete_pairs (_align s) (incoming (_pipeline s))).
Proof.
  induction n as [|n IH]; intros s; [reflexivity|].
  cbn [Capture.pulls Capture.next]. unfold Capture.resume.
  pose proof (wait_pair_spec (_align s) (incoming (_pipeline s))) as Hw.
  destruct (wait_pair (_align s) (incoming (_pipeline s))) as [[v|e| |] rest].
  - set (s' := mkCaptureSession _ _ _ _).
    specialize (IH s'). destruct (pulls n Suspended s') as [[sts g2] s2].
    simpl in *. rewrite Hw, IH. reflexivity.
  - rewrite pulls_finished. simpl. rewrite Hw, yields_replicate_stop.
    by rewrite take_nil.
  - done.
  - destruct Hw as [Hw ->].
    set (s' := mkCaptureSession _ _ _ _).
    specialize (IH s'). destruct (pulls n Suspended s') as [[sts g2] s2].
    simpl in *. rewrite Hw, IH. by rewrite take_nil.
Qed.

Lemma pulls_created_started n s :
  _started s = true ->
  yields (pulls n Created s).1.1 =
  take n (complete_pairs (_align s) (incoming (_pipeline s))).
Proof.
  intros Hs. rewrite <- pulls_suspended.
  destruct n as [|n]; [reflexivity|].
  cbn [Capture.pulls Capture.next]. by rewrite Hs.
Qed.

(** When the [_started] flag is false at the first [next] on a generator
    of [frames], that [next] raises RuntimeError without touching the
    session, every later [next] gives StopIteration, and so no frame pair is
    ever yielded. *)
Lemma frames_before_start_raises :
  forall (s : CaptureSession) (n : nat),
    _started s = false ->
    next Created s = (Raised RuntimeError, Finished, s) /\
    pulls (S n) Created s
    = (Raised RuntimeError :: replicate n StopIteration, Finished, s) /\
    yields (pulls (S n) Created s).1.1 = [].
Proof.
  intros s n Hs.
  assert (Hn : next Created s = (Raised RuntimeError, Finished, s)).
  { unfold Capture.next. by rewrite Hs. }
  split; [exact Hn|].
  assert (Hp : pulls (S n) Created s
               = (Raised RuntimeError :: replicate n StopIteration, Finished, s)).
  { cbn [Capture.pulls]. rewrite Hn, pulls_finished. reflexivity. }
  split; [exact Hp|]. rewrite Hp. simpl. apply yields_replicate_stop.
Qed.

(** C3.  Calling [frames] on a session that is not started does not fail:
    it returns a generator, and when the session is started before that
    generator is first advanced, the generator yields.  Here the session
    has alignment off, the device opens and its first delivery is a
    complete frameset: the first [next] after [start] yields that pair. *)
Theorem frames_called_before_start_yields_after_start :
  forall (color_profile depth_profile : StreamProfile) (file : option string)
         (log : list device_event) (color : image) (depth : depth_map)
         (later : list (result frameset)),
    let s := init (mkCaptureConfig color_profile depth_profile false file)
                  (mkPipeline log
                     (Ok (mkFrameset (Some color) (Some depth)) :: later)) in
    let s1 := snd (Capture.start (fun _ => true) s) in
    _started s = false /\
    frames s = Ok Created /\
    _started s1 = true /\
    (next Created s1).1 = (Yielded (color, depth), Suspended).
Proof. intros. repeat split. Qed.

(** C6.  On a started session the pairs yielded by any number of calls of
    [next] are the first complete pairs of the deliveries, in order; each
    of them comes from a delivered frameset that has a colour and a depth
    component; and a frameset lacking either is passed over, the loop going
    on to the next delivery. *)
Theorem frames_never_yields_incomplete_pair :
  forall (s : CaptureSession) (n : nat),
    _started s = true ->
    yields (pulls n Created s).1.1
    = take n (complete_pairs (_align s) (incoming (_pipeline s))) /\
    (forall color depth,
       (color, depth) ∈ yields (pulls n Created s).1.1 ->
       exists fs, Ok fs ∈ incoming (_pipeline s) /\
         get_color_frame (view (_align s) fs) = Some color /\
         get_depth_frame (view (_align s) fs) = Some depth) /\
    (forall fs rest,
       get_color_frame (view (_align s) fs) = None \/
       get_depth_frame (view (_align s) fs) = None ->
       wait_pair (_align s) (Ok fs :: rest) = wait_pair (_align s) rest).
Proof.
  intros s n Hs. split; [by apply pulls_created_started|].
  split.
  - intros c d Hin. rewrite (pulls_created_started n s Hs) in Hin.
    apply elem_of_take in Hin as (i & Hi & _).
    apply (complete_pairs_origin (_align s)).
    eapply list_elem_of_lookup_2; eauto.
  - intros fs rest. apply wait_pair_skips.
Qed.

(** *** Lifecycle *)

(** C7.  [start] on a started session and [stop] on a stopped session
    return at once and leave the session, its pipeline and the device log
    as they were; hence a second [stop] after a [stop], and a second
    [start] after a [start], change nothing. *)
Theorem start_stop_idempotent :
  forall (config : CaptureConfig) (p : rs_pipeline) (al : bool),
    start (mkCaptureSession config p al true)
      = (Ok tt, mkCaptureSession config p al true) /\
    stop (mkCaptureSession config p al false)
      = mkCaptureSession config p al false /\
    (forall s, stop (stop s) = stop s) /\
    (forall s, snd (start (snd (start s))) = snd (start s)).
Proof.
  intros config p al. split; [reflexivity|]. split; [reflexivity|]. split.
  - intros [c q a [|]]; reflexivity.
  - intros [c q a [|]]; [reflexivity|].
    unfold Capture.start, pipeline_start; simpl.
    destruct (device_opens (build_config c)) eqn:Hd; simpl; [reflexivity|].
    by rewrite Hd.
Qed.

(** *** Scoped use *)

(** C8.  When [__enter__] has returned, the statement [with session: body]
    gives the body's outcome, a value or an exception alike, and calls
    [stop] exactly once after the body; that call releases the device once
    if the session is started when the body is left and not at all
    otherwise, and the session is stopped afterwards. *)
Theorem with_session_stops_once :
  forall (R : Type) (w w1 : world) (body : world -> result R * world),
    enter w = (Ok tt, w1) ->
    let after_body := snd (body w1) in
    let final := snd (with_session w body) in
    fst (with_session w body) = fst (body w1) /\
    calls final = calls after_body ++ [M_stop] /\
    stop_calls final = S (stop_calls after_body) /\
    releases (_pipeline (session final))
      = (releases (_pipeline (session after_body))
         + (if _started (session after_body) then 1 else 0))%nat /\
    _started (session final) = false.
Proof.
  intros R w w1 body He. cbv zeta. unfold Capture.with_session.
  rewrite He. destruct (body w1) as [r w2]. cbn [fst snd].
  unfold exit, call_stop. cbn [calls session].
  split; [reflexivity|]. split; [reflexivity|].
  split.
  { unfold stop_calls. cbn [calls]. rewrite List.filter_app, length_app.
    simpl. lia. }
  destruct w2 as [[c p a [|]] cl]; cbn; unfold releases; cbn.
  - rewrite List.filter_app, length_app. simpl. split; [lia|reflexivity].
  - split; [lia|reflexivity].
Qed.

End Session.

(** *** The statements above at concrete sessions *)

Definition black_frame : image := Image 1 1 [(0, 0, 0)].
Definition flat_depth : depth_map := mkDepthMap 1 1 [1000].

(** Three deliveries: a frameset without depth, a complete one, a timeout. *)
Definition sample_pipeline : rs_pipeline :=
  mkPipeline []
    [ Ok (mkFrameset (Some black_frame) None);
      Ok (mkFrameset (Some black_frame) (Some flat_depth));
      Raise RuntimeError ].

Lemma frames_before_start_raises_witness :
  let s := init default_config sample_pipeline in
  _started s = false /\
  next id Created s = (Raised RuntimeError, Finished, s).
Proof.
  cbv zeta. split; [reflexivity|].
  exact (proj1 (frames_before_start_raises id
                  (init default_config sample_pipeline) 0 eq_refl)).
Defined.

Lemma frames_never_yields_incomplete_pair_witness :
  let s := snd (Capture.start (fun _ => true) (init default_config sample_pipeline)) in
  _started s = true /\
  yields (Capture.pulls id 3 Created s).1.1 = [(black_frame, flat_depth)].
Proof.
  cbv zeta. split; [reflexivity|].
  rewrite (proj1 (frames_never_yields_incomplete_pair id
             (snd (Capture.start (fun _ => true)
                     (init default_config sample_pipeline)))
             3 eq_refl)).
  reflexivity.
Defined.

Lemma with_session_stops_once_witness :
  let w := mkWorld (init default_config sample_pipeline) [] in
  let body := fun w1 : world => (@Raise unit ValueError, w1) in
  let final := snd (Capture.with_session (fun _ => true) w body) in
  fst (Capture.with_session (fun _ => true) w body) = Raise ValueError /\
  stop_calls final = 1%nat /\
  releases (_pipeline (session final)) = 1%nat /\
  _started (session final) = false.
Proof.
  cbv zeta.
  destruct (with_session_stops_once (fun _ => true) unit
              (mkWorld (init default_config sample_pipeline) [])
              (snd (Capture.enter (fun _ => true)
                      (mkWorld (init default_config sample_pipeline) [])))
              (fun w1 : world => (@Raise unit ValueError, w1))
              eq_refl) as (Hr & _ & Hs & Hrel & Hst).
  split; [exact Hr|]. split; [exact Hs|]. split; [exact Hrel|exact Hst].
Defined.

End CaptureFacts.

(* ===================================================================== *)
(** ** overlay.py: further properties of [render] and [render_sequence] *)
(* ===================================================================== *)

Module PixelFacts.
Import Np Cv2 Cv2Facts.

Lemma put_pixel_palette c img p i px :
  buffer (put_pixel c img p) !! i = Some px ->
  px = c \/ buffer img !! i = Some px.
Proof.
  destruct p as [px0 py0]. unfold put_pixel.
  destruct (_ && _); simpl; [|by right].
  intros H. apply list_lookup_insert_Some in H as [(_ & -> & _)|[_ H]];
    [by left|by right].
Qed.

Lemma paint_palette c ps : forall img i px,
  buffer (paint c img ps) !! i = Some px ->
  px = c \/ buffer img !! i = Some px.
Proof.
  unfold paint. induction ps as [|p ps IH]; intros img i px; simpl; [by right|].
  intros H. destruct (IH _ _ _ H) as [->|H']; [by left|].
  by apply put_pixel_palette in H'.
Qed.

Lemma paint_buffer_length c ps : forall img,
  length (buffer (paint c img ps)) = length (buffer img).
Proof.
  unfold paint. induction ps as [|p ps IH]; intros img; simpl; [reflexivity|].
  rewrite IH. apply put_pixel_buffer_length.
Qed.

Lemma in_bounds_dims img img' p :
  dims img' = dims img -> in_bounds img' p = in_bounds img p.
Proof. unfold dims, in_bounds. by intros [= -> ->]. Qed.

Lemma well_formed_dims img img' :
  dims img' = dims img -> length (buffer img') = length (buffer img) ->
  well_formed img -> well_formed img'.
Proof. unfold dims, well_formed. intros [= -> ->] ->. done. Qed.

Lemma paint_well_formed c ps img : well_formed img -> well_formed (paint c img ps).
Proof.
  apply well_formed_dims; [apply paint_dims|apply paint_buffer_length].
Qed.

Lemma in_bounds_index img p :
  well_formed img -> in_bounds img p = true ->
  (Z.to_nat (snd p * Z.of_nat (cols img) + fst p) < length (buffer img))%nat.
Proof.
  unfold well_formed, in_bounds. intros -> H.
  repeat (apply andb_true_iff in H as [H ?]).
  apply Z.leb_le in H. rewrite Z.ltb_lt in *. rewrite Z.leb_le in *. nia.
Qed.

(** Writing a pixel inside a well-formed image puts the colour there. *)
Lemma put_pixel_sets c img p :
  well_formed img -> in_bounds img p = true ->
  pixel_at (put_pixel c img p) p = Some c.
Proof.
  intros Hwf Hin. pose proof (in_bounds_index img p Hwf Hin) as Hlt.
  unfold pixel_at. rewrite (in_bounds_dims img _ p (put_pixel_dims c img p)), Hin.
  destruct p as [px0 py0]. unfold put_pixel, in_bounds in *. simpl in *.
  rewrite Hin. simpl. by apply list_lookup_insert_eq.
Qed.

(** A pixel that has the colour keeps it when the same colour is written
    anywhere. *)
Lemma put_pixel_keeps c img p q :
  pixel_at img q = Some c -> pixel_at (put_pixel c img p) q = Some c.
Proof.
  unfold pixel_at.
  rewrite (in_bounds_dims img _ q (put_pixel_dims c img p)).
  destruct (in_bounds img q); [|done].
  destruct p as [px0 py0]. unfold put_pixel.
  destruct (_ && _); simpl; [|done].
  intros H. apply list_lookup_insert_Some.
  destruct (decide (Z.to_nat (py0 * Z.of_nat (cols img) + px0)
                    = Z.to_nat (snd q * Z.of_nat (cols img) + fst q))) as [Heq|Hne].
  - left. split; [done|]. split; [done|]. apply lookup_lt_Some in H. lia.
  - right. done.
Qed.

Lemma paint_keeps c ps : forall img q,
  pixel_at img q = Some c -> pixel_at (paint c img ps) q = Some c.
Proof.
  unfold paint. induction ps as [|p ps IH]; intros img q H; simpl; [done|].
  apply IH. by apply put_pixel_keeps.
Qed.

Lemma paint_covers c ps : forall img p,
  well_formed img -> p ∈ ps -> in_bounds img p = true ->
  pixel_at (paint c img ps) p = Some c.
Proof.
  induction ps as [|q ps IH]; intros img p Hwf Hin Hb.
  - by apply elem_of_nil in Hin.
  - change (paint c img (q :: ps)) with (paint c (put_pixel c img q) ps).
    destruct (decide (p = q)) as [->|Hne].
    + apply paint_keeps. by apply put_pixel_sets.
    + apply elem_of_cons in Hin as [?|Hin]; [done|].
      apply IH; [|done|].
      * apply (paint_well_formed c [q] img Hwf).
      * by rewrite (in_bounds_dims img _ p (put_pixel_dims c img q)).
Qed.

End PixelFacts.

Module OverlayMore.
Import Np Cv2 BodyTracking Overlay Cv2Facts OverlayFacts PixelFacts.

Section Renderer.
Variable cast_out_of_range : float -> Z.
Variable line_raster : Z * Z -> Z * Z -> Z -> list (Z * Z).
Variable circle_raster : Z * Z -> Z -> Z -> list (Z * Z).
Variable colors : OverlayColors.

Abbreviation landmark_px := (landmark_px cast_out_of_range).
Abbreviation drawable := (drawable cast_out_of_range).
Abbreviation renderable := (renderable cast_out_of_range).
Abbreviation lines_drawn := (lines_drawn line_raster colors).
Abbreviation joints_drawn := (joints_drawn circle_raster colors).
Abbreviation annotated_image :=
  (annotated_image cast_out_of_range line_raster circle_raster colors).
Abbreviation render := (render cast_out_of_range line_raster circle_raster colors).
Abbreviation render_sequence :=
  (render_sequence cast_out_of_range line_raster circle_raster colors).

Lemma no_edge_in_range n :
  (n <= 12)%nat -> List.filter (in_range n) default_pairs = [].
Proof.
  intros Hn. do 13 (destruct n as [|n]; [reflexivity|]). lia.
Qed.

Lemma scalar_byte (c : Z * Z * Z) : byte_color c = true -> scalar c = c.
Proof.
  destruct c as [[b g] r]. unfold byte_color, scalar, saturate_u8. intros H.
  repeat (apply andb_true_iff in H as [H ?]).
  rewrite Z.leb_le in *. repeat f_equal; lia.
Qed.

Lemma byte_colors_scalar :
  byte_colors colors = true ->
  scalar (skeleton colors) = skeleton colors /\
  scalar (joints colors) = joints colors.
Proof.
  unfold byte_colors. intros [? ?]%andb_true_iff. split; by apply scalar_byte.
Qed.

Lemma lines_drawn_palette coords edges : forall img i px,
  buffer (lines_drawn coords img edges) !! i = Some px ->
  px = scalar (skeleton colors) \/ buffer img !! i = Some px.
Proof.
  unfold Overlay.lines_drawn.
  induction edges as [|e edges IH]; intros img i px; simpl; [by right|].
  intros H. destruct (IH _ _ _ H) as [->|H']; [by left|].
  by apply paint_palette in H'.
Qed.

Lemma joints_drawn_palette coords : forall img i px,
  buffer (joints_drawn coords img) !! i = Some px ->
  px = scalar (joints colors) \/ buffer img !! i = Some px.
Proof.
  unfold Overlay.joints_drawn.
  induction coords as [|c coords IH]; intros img i px; simpl; [by right|].
  intros H. destruct (IH _ _ _ H) as [->|H']; [by left|].
  by apply paint_palette in H'.
Qed.

Lemma lines_drawn_buffer_length coords edges : forall img,
  length (buffer (lines_drawn coords img edges)) = length (buffer img).
Proof.
  unfold Overlay.lines_drawn.
  induction edges as [|e edges IH]; intros img; simpl; [reflexivity|].
  rewrite IH. apply paint_buffer_length.
Qed.

Lemma joints_drawn_buffer_length coords : forall img,
  length (buffer (joints_drawn coords img)) = length (buffer img).
Proof.
  unfold Overlay.joints_drawn.
  induction coords as [|c coords IH]; intros img; simpl; [reflexivity|].
  rewrite IH. apply paint_buffer_length.
Qed.

Lemma joints_drawn_keeps coords : forall img q,
  pixel_at img q = Some (scalar (joints colors)) ->
  pixel_at (joints_drawn coords img) q = Some (scalar (joints colors)).
Proof.
  unfold Overlay.joints_drawn.
  induction coords as [|c coords IH]; intros img q H; simpl; [done|].
  apply IH. by apply paint_keeps.
Qed.

Lemma joints_drawn_covers coords : forall img c p,
  well_formed img -> c ∈ coords -> p ∈ circle_raster c 4 (-1) ->
  in_bounds img p = true ->
  pixel_at (joints_drawn coords img) p = Some (scalar (joints colors)).
Proof.
  induction coords as [|c0 coords IH]; intros img c p Hwf Hc Hp Hb.
  - by apply elem_of_nil in Hc.
  - change (joints_drawn (c0 :: coords) img)
      with (joints_drawn coords
              (circle_painted circle_raster img c0 4 (joints colors) (-1))).
    apply elem_of_cons in Hc as [->|Hc].
    + apply joints_drawn_keeps. by apply paint_covers.
    + apply (IH _ c); [by apply paint_well_formed|done|done|].
      by rewrite (in_bounds_dims img _ p (circle_dims _ _ _ _ _ _)).
Qed.

(** Appending to sequences of equal length whose run ends normally: the
    run goes on with what was appended, from the heap reached. *)
Lemma render_sequence_app fs1 : forall ps1 fs' ps' (h h1 : gmap positive image) out,
  length fs1 = length ps1 ->
  render_sequence fs1 ps1 h = (out, Ok tt, h1) ->
  render_sequence (fs1 ++ fs') (ps1 ++ ps') h =
  (let '(out', fin, h') := render_sequence fs' ps' h1 in (out ++ out', fin, h')).
Proof.
  induction fs1 as [|f fs1 IH]; intros [|p ps1] fs' ps' h h1 out Hlen Hrs;
    try discriminate.
  { simpl in Hrs. injection Hrs as <- <-. simpl.
    by destruct (render_sequence fs' ps' h) as [[? ?] ?]. }
  injection Hlen as Hlen. cbn [app Overlay.render_sequence] in *.
  destruct p as [p|].
  - destruct (render f p h) as [[a|e] h0]; [|discriminate].
    destruct (render_sequence fs1 ps1 h0) as [[out0 fin0] h2] eqn:Hr0.
    injection Hrs as <- -> <-.
    rewrite (IH ps1 fs' ps' h0 h2 out0 Hlen Hr0).
    by destruct (render_sequence fs' ps' h2) as [[? ?] ?].
  - destruct (render_sequence fs1 ps1 h) as [[out0 fin0] h2] eqn:Hr0.
    injection Hrs as <- -> <-.
    rewrite (IH ps1 fs' ps' h h2 out0 Hlen Hr0).
    by destruct (render_sequence fs' ps' h2) as [[? ?] ?].
Qed.

(** X1.  On an allocated, non-empty frame, with colour components in
    0..255 and a drawable pose result (at least one landmark, width and
    height within the float64 range, every scaled coordinate within the C
    int range), [render] returns a reference that was not allocated before
    (so not the input), the heap grows by exactly that frame, the new frame
    has the input's dimensions, and every frame that existed, the input
    among them, is left as it was.  On no other pose result does [render]
    return. *)
Theorem render_allocates_one_frame :
  forall (frame : positive) (pose : PoseResult) (h : gmap positive image)
         (img : image),
    byte_colors colors = true ->
    drawable pose = true ->
    h !! frame = Some img ->
    Cv2.empty img = false ->
    (exists annotated img' h',
       render frame pose h = (Ok annotated, h') /\
       (annotated ∉ dom h) /\
       annotated <> frame /\
       dom h' = dom h ∪ {[annotated]} /\
       h' !! annotated = Some img' /\
       dims img' = dims img /\
       h' !! frame = Some img /\
       (forall l old, h !! l = Some old -> h' !! l = Some old)) /\
    (forall other : PoseResult,
       Py.is_ok (render frame other h).1 = true -> drawable other = true).
Proof.
  intros frame pose h img _ Hd Hf _. split; [|intros other; apply render_ok_drawable].
  pose proof (is_fresh (dom h)) as Hfresh.
  assert (Hother : forall l old, h !! l = Some old ->
            <[fresh (dom h) := annotated_image pose img]> h !! l = Some old).
  { intros l old Hl. rewrite lookup_insert_ne; [done|].
    intros <-. apply Hfresh. apply elem_of_dom. by exists old. }
  exists (fresh (dom h)), (annotated_image pose img),
         (<[fresh (dom h) := annotated_image pose img]> h).
  split; [by apply render_drawable|].
  split; [exact Hfresh|].
  split; [intros Heq; apply Hfresh; rewrite Heq; apply elem_of_dom; by exists img|].
  split; [by rewrite dom_insert_L, (comm_L (∪))|].
  split; [apply lookup_insert_eq|].
  split; [apply annotated_image_dims|].
  split; [by apply Hother|exact Hother].
Qed.

(** X2.  On an allocated, non-empty frame, with colour components in
    0..255 and a drawable pose result, the frame [render] returns is the
    input's image with a segment drawn for each edge of the fixed set whose
    two endpoints are below the landmark count, in the set's order, and
    then a circle for every landmark; an edge with an endpoint at or beyond
    the landmark count is not drawn. *)
Theorem render_draws_edges_in_range :
  forall (frame : positive) (pose : PoseResult) (h : gmap positive image)
         (img : image),
    byte_colors colors = true ->
    drawable pose = true ->
    h !! frame = Some img ->
    Cv2.empty img = false ->
    let n := length (landmarks pose) in
    let coords := map (landmark_px pose) (landmarks pose) in
    let kept := List.filter (in_range n) default_pairs in
    (exists annotated h',
       render frame pose h = (Ok annotated, h') /\
       h' !! annotated = Some (joints_drawn coords (lines_drawn coords img kept))) /\
    (forall e, e ∈ kept <->
               e ∈ default_pairs /\ (fst e < n)%nat /\ (snd e < n)%nat).
Proof.
  intros frame pose h img _ Hd Hf _. cbv zeta. split.
  - eexists _, _. split; [by apply render_drawable|].
    rewrite lookup_insert_eq. reflexivity.
  - intros e. apply edge_kept_iff.
Qed.

(** X3.  On an allocated, non-empty frame, with colour components in
    0..255 and a drawable pose result of 29 landmarks or more, [render]
    draws all eleven edges of the fixed set, then a circle for every
    landmark. *)
Theorem render_draws_whole_skeleton :
  forall (frame : positive) (pose : PoseResult) (h : gmap positive image)
         (img : image),
    byte_colors colors = true ->
    drawable pose = true ->
    (29 <= length (landmarks pose))%nat ->
    h !! frame = Some img ->
    Cv2.empty img = false ->
    let coords := map (landmark_px pose) (landmarks pose) in
    length default_pairs = 11%nat /\
    length coords = length (landmarks pose) /\
    exists annotated h',
      render frame pose h = (Ok annotated, h') /\
      h' !! annotated
      = Some (joints_drawn coords (lines_drawn coords img default_pairs)).
Proof.
  intros frame pose h img _ Hd Hn Hf _. cbv zeta.
  split; [reflexivity|]. split; [apply length_map|].
  eexists _, _. split; [by apply render_drawable|].
  rewrite lookup_insert_eq. unfold Overlay.annotated_image.
  by rewrite (all_edges_in_range _ Hn).
Qed.

(** X4.  On an allocated, non-empty frame, with colour components in
    0..255 and a drawable pose result of at most twelve landmarks, no edge
    of the fixed set has both endpoints in range: [render] draws the
    landmark circles only. *)
Theorem render_draws_joints_only :
  forall (frame : positive) (pose : PoseResult) (h : gmap positive image)
         (img : image),
    byte_colors colors = true ->
    drawable pose = true ->
    (length (landmarks pose) <= 12)%nat ->
    h !! frame = Some img ->
    Cv2.empty img = false ->
    exists annotated h',
      render frame pose h = (Ok annotated, h') /\
      h' !! annotated
      = Some (joints_drawn (map (landmark_px pose) (landmarks pose)) img).
Proof.
  intros frame pose h img _ Hd Hn Hf _.
  eexists _, _. split; [by apply render_drawable|].
  rewrite lookup_insert_eq. unfold Overlay.annotated_image.
  by rewrite (no_edge_in_range _ Hn).
Qed.

(** X5.  On an allocated, non-empty frame, with colour components in
    0..255 and a drawable pose result, the buffer of the frame [render]
    returns is as long as the input's, and every pixel of it is the
    input's pixel at that position, the skeleton colour or the joint
    colour. *)
Theorem render_pixels_from_palette :
  forall (frame : positive) (pose : PoseResult) (h : gmap positive image)
         (img : image),
    byte_colors colors = true ->
    drawable pose = true ->
    h !! frame = Some img ->
    Cv2.empty img = false ->
    exists annotated img' h',
      render frame pose h = (Ok annotated, h') /\
      h' !! annotated = Some img' /\
      length (buffer img') = length (buffer img) /\
      (forall i px,
         buffer img' !! i = Some px ->
         px = joints colors \/ px = skeleton colors \/
         buffer img !! i = Some px).
Proof.
  intros frame pose h img Hc Hd Hf _.
  destruct (byte_colors_scalar Hc) as [Hs Hj].
  eexists _, (annotated_image pose img), _.
  split; [by apply render_drawable|].
  split; [apply lookup_insert_eq|].
  unfold Overlay.annotated_image. split.
  - by rewrite joints_drawn_buffer_length, lines_drawn_buffer_length.
  - intros i px H.
    apply joints_drawn_palette in H as [->|H]; [by left|].
    apply lines_drawn_palette in H as [->|H]; [right; by left|].
    right; by right.
Qed.

(** X6.  Joints are drawn on top: on an allocated frame holding one pixel
    per position, with colour components in 0..255 and a drawable pose
    result, every position inside the image that the circle of some
    landmark covers has the joint colour in the frame [render] returns,
    whatever edges pass there. *)
Theorem render_joints_on_top :
  forall (frame : positive) (pose : PoseResult) (h : gmap positive image)
         (img : image) (lm : PoseLandmark) (p : Z * Z),
    byte_colors colors = true ->
    drawable pose = true ->
    well_formed img ->
    h !! frame = Some img ->
    lm ∈ landmarks pose ->
    p ∈ circle_raster (landmark_px pose lm) 4 (-1) ->
    in_bounds img p = true ->
    exists annotated img' h',
      render frame pose h = (Ok annotated, h') /\
      h' !! annotated = Some img' /\
      pixel_at img' p = Some (joints colors).
Proof.
  intros frame pose h img lm p Hc Hd Hwf Hf Hlm Hp Hb.
  destruct (byte_colors_scalar Hc) as [_ Hj].
  eexists _, (annotated_image pose img), _.
  split; [by apply render_drawable|].
  split; [apply lookup_insert_eq|].
  unfold Overlay.annotated_image. rewrite <- Hj.
  apply (joints_drawn_covers _ _ (landmark_px pose lm)); [| |done|].
  - eapply well_formed_dims; [apply lines_drawn_dims| |exact Hwf].
    apply lines_drawn_buffer_length.
  - apply list_elem_of_fmap. by exists lm.
  - by rewrite (in_bounds_dims img _ p (lines_drawn_dims _ _ _ _ _)).
Qed.

(** X7.  With colour components in 0..255, when every frame is allocated
    and non-empty and every pose result given is drawable,
    [render_sequence] ends normally after as many outputs as the shorter
    sequence has elements; where the pose is [None] the output is the input
    reference itself, elsewhere it is a reference allocated by the call
    whose frame has the input's dimensions; and every frame that existed
    before is unchanged afterwards. *)
Theorem render_sequence_pairs_up :
  forall (frames : list positive) (poses : list (option PoseResult))
         (h : gmap positive image),
    byte_colors colors = true ->
    Forall (fun f => exists img, h !! f = Some img /\ Cv2.empty img = false)
           frames ->
    Forall renderable poses ->
    exists out h',
      render_sequence frames poses h = (out, Ok tt, h') /\
      length out = Nat.min (length frames) (length poses) /\
      (forall l old, h !! l = Some old -> h' !! l = Some old) /\
      (forall k frame pose,
         frames !! k = Some frame -> poses !! k = Some pose ->
         match pose with
         | None => out !! k = Some frame
         | Some _ =>
             exists annotated img img',
               out !! k = Some annotated /\ (annotated ∉ dom h) /\
               h !! frame = Some img /\ h' !! annotated = Some img' /\
               dims img' = dims img
         end).
Proof.
  intros frames poses h _ Hfr0 Hps.
  assert (Hfr : Forall (fun f => is_Some (h !! f)) frames).
  { eapply Forall_impl; [exact Hfr0|]. intros f (img & Hf & _). by exists img. }
  destruct (render_sequence_zip cast_out_of_range line_raster circle_raster
              colors frames poses h Hfr Hps) as (out & h' & Hrs & Hlen & Hsub & Hk).
  exists out, h'. split; [exact Hrs|]. split; [exact Hlen|].
  split; [intros l old Hl; eapply lookup_weaken; eauto|].
  intros k frame pose Hfk Hpk. specialize (Hk k frame pose Hfk Hpk).
  destruct pose as [q|]; [|exact Hk].
  destruct Hk as (a & img & Ho & Ha & Hfi & Hh).
  exists a, img, (annotated_image q img).
  repeat split; try done. apply annotated_image_dims.
Qed.

(** X8.  Over poses that are all [None], [render_sequence] yields the
    frames themselves, as many as there are poses (at most all), and
    allocates and changes nothing. *)
Theorem render_sequence_without_poses :
  forall (frames : list positive) (n : nat) (h : gmap positive image),
    render_sequence frames (replicate n None) h = (take n frames, Ok tt, h).
Proof.
  induction frames as [|f frames IH]; intros [|n] h; simpl; try reflexivity.
  by rewrite IH.
Qed.

(** X27.  When the pose result at some position has no landmarks and the
    run of [render_sequence] over the positions before it ends normally,
    the whole run yields exactly the outputs of that run over the earlier
    positions, reaches the same heap, and ends with IndexError; the frames
    and poses after that position are never looked at. *)
Theorem render_sequence_stops_at_first_failure :
  forall (fs1 : list positive) (ps1 : list (option PoseResult))
         (f : positive) (fs2 : list positive) (ph pw : Z)
         (ps2 : list (option PoseResult)) (h h1 : gmap positive image)
         (out : list positive),
    length fs1 = length ps1 ->
    render_sequence fs1 ps1 h = (out, Ok tt, h1) ->
    render_sequence (fs1 ++ f :: fs2)
      (ps1 ++ Some (mkPoseResult [] ph pw) :: ps2) h
    = (out, Raise IndexError, h1).
Proof.
  intros fs1 ps1 f fs2 ph pw ps2 h h1 out Hlen Hrs.
  rewrite (render_sequence_app fs1 ps1 _ _ h h1 out Hlen Hrs).
  cbn [Overlay.render_sequence]. rewrite render_nil. by rewrite app_nil_r.
Qed.

End Renderer.

(** *** The statements above at concrete frames *)

Definition dot_raster (p q : Z * Z) (thickness : Z) : list (Z * Z) := [p; q].
Definition point_raster (c : Z * Z) (radius thickness : Z) : list (Z * Z) := [c].
Definition grey_frame : image := Image 2 2 (replicate 4 (9, 9, 9)).
Definition one_landmark : PoseResult :=
  mkPoseResult [mkPoseLandmark 0.5 0.5 0 1] 2 2.
Definition shoulders_pose : PoseResult :=
  mkPoseResult (replicate 13 (mkPoseLandmark 0.5 0.5 0 1)) 2 2.
Definition full_pose : PoseResult :=
  mkPoseResult (replicate 33 (mkPoseLandmark 0.5 0.5 0 1)) 2 2.
Definition one_frame_heap : gmap positive image := {[ 1%positive := grey_frame ]}.

Lemma render_allocates_one_frame_witness :
  exists annotated img' h',
    Overlay.render (fun _ => int64_min) dot_raster point_raster default_colors
      1%positive one_landmark one_frame_heap = (Ok annotated, h') /\
    annotated <> 1%positive /\
    h' !! annotated = Some img' /\ dims img' = (2, 2)%nat /\
    h' !! 1%positive = Some grey_frame.
Proof.
  destruct (render_allocates_one_frame (fun _ => int64_min) dot_raster
              point_raster default_colors 1%positive one_landmark
              one_frame_heap grey_frame eq_refl eq_refl eq_refl eq_refl)
    as ((a & img' & h' & Hr & _ & Hne & _ & Ha & Hd & Hf & _) & _).
  exists a, img', h'. repeat split; assumption.
Defined.

Lemma render_draws_edges_in_range_witness :
  let coords := map (Overlay.landmark_px (fun _ => int64_min) shoulders_pose)
                    (landmarks shoulders_pose) in
  exists annotated h',
    Overlay.render (fun _ => int64_min) dot_raster point_raster default_colors
      1%positive shoulders_pose one_frame_heap = (Ok annotated, h') /\
    h' !! annotated
    = Some (Overlay.joints_drawn point_raster default_colors coords
              (Overlay.lines_drawn dot_raster default_colors coords grey_frame
                 [(11, 12)]%nat)).
Proof.
  exact (proj1 (render_draws_edges_in_range (fun _ => int64_min) dot_raster
                  point_raster default_colors 1%positive shoulders_pose
                  one_frame_heap grey_frame eq_refl eq_refl eq_refl eq_refl)).
Defined.

Lemma render_draws_whole_skeleton_witness :
  let coords := map (Overlay.landmark_px (fun _ => int64_min) full_pose)
                    (landmarks full_pose) in
  exists annotated h',
    Overlay.render (fun _ => int64_min) dot_raster point_raster default_colors
      1%positive full_pose one_frame_heap = (Ok annotated, h') /\
    h' !! annotated
    = Some (Overlay.joints_drawn point_raster default_colors coords
              (Overlay.lines_drawn dot_raster default_colors coords grey_frame
                 default_pairs)).
Proof.
  exact (proj2 (proj2 (render_draws_whole_skeleton (fun _ => int64_min)
                  dot_raster point_raster default_colors 1%positive full_pose
                  one_frame_heap grey_frame eq_refl eq_refl
                  ltac:(vm_compute; lia) eq_refl eq_refl))).
Defined.

Lemma render_draws_joints_only_witness :
  exists annotated h',
    Overlay.render (fun _ => int64_min) dot_raster point_raster default_colors
      1%positive one_landmark one_frame_heap = (Ok annotated, h') /\
    h' !! annotated
    = Some (Overlay.joints_drawn point_raster default_colors
              (map (Overlay.landmark_px (fun _ => int64_min) one_landmark)
                   (landmarks one_landmark)) grey_frame).
Proof.
  exact (render_draws_joints_only (fun _ => int64_min) dot_raster point_raster
           default_colors 1%positive one_landmark one_frame_heap grey_frame
           eq_refl eq_refl ltac:(simpl; lia) eq_refl eq_refl).
Defined.

Lemma render_pixels_from_palette_witness :
  exists annotated img' h',
    Overlay.render (fun _ => int64_min) dot_raster point_raster default_colors
      1%positive shoulders_pose one_frame_heap = (Ok annotated, h') /\
    h' !! annotated = Some img' /\
    length (buffer img') = 4%nat.
Proof.
  destruct (render_pixels_from_palette (fun _ => int64_min) dot_raster
              point_raster default_colors 1%positive shoulders_pose
              one_frame_heap grey_frame eq_refl eq_refl eq_refl eq_refl)
    as (a & img' & h' & Hr & Ha & Hl & _).
  exists a, img', h'. repeat split; assumption.
Defined.

Lemma render_joints_on_top_witness :
  exists annotated img' h',
    Overlay.render (fun _ => int64_min) dot_raster point_raster default_colors
      1%positive shoulders_pose one_frame_heap = (Ok annotated, h') /\
    h' !! annotated = Some img' /\
    pixel_at img' (1, 1) = Some (0, 128, 255).
Proof.
  exact (render_joints_on_top (fun _ => int64_min) dot_raster point_raster
           default_colors 1%positive shoulders_pose one_frame_heap grey_frame
           (mkPoseLandmark 0.5 0.5 0 1) (1, 1)
           eq_refl eq_refl eq_refl eq_refl ltac:(left) ltac:(left) eq_refl).
Defined.

Lemma render_sequence_pairs_up_witness :
  exists out h',
    Overlay.render_sequence (fun _ => int64_min) dot_raster point_raster
      default_colors [1%positive; 1%positive] [None; Some shoulders_pose; None]
      one_frame_heap = (out, Ok tt, h') /\
    length out = 2%nat.
Proof.
  destruct (render_sequence_pairs_up (fun _ => int64_min) dot_raster
              point_raster default_colors [1%positive; 1%positive]
              [None; Some shoulders_pose; None] one_frame_heap eq_refl)
    as (out & h' & Hr & Hl & _).
  - repeat constructor; by exists grey_frame.
  - repeat constructor.
  - exists out, h'. split; assumption.
Defined.

Lemma render_sequence_stops_at_first_failure_witness :
  Overlay.render_sequence (fun _ => int64_min) dot_raster point_raster
    default_colors [1%positive; 1%positive; 1%positive]
    [None; Some (mkPoseResult [] 2 2); Some one_landmark] one_frame_heap
  = ([1%positive], Raise IndexError, one_frame_heap).
Proof.
  exact (render_sequence_stops_at_first_failure (fun _ => int64_min)
           dot_raster point_raster default_colors [1%positive] [None]
           1%positive [1%positive] 2 2 [Some one_landmark] one_frame_heap
           one_frame_heap [1%positive] eq_refl eq_refl).
Defined.

End OverlayMore.

(* ===================================================================== *)
(** ** calibration.py: reading, overwriting, file names *)
(* ===================================================================== *)

Module CalibrationMore.
Import Np Calibration CalibrationFacts.
Local Open Scope string_scope.

Lemma string_length_append (s t : string) :
  String.length (String.append s t) = (String.length s + String.length t)%nat.
Proof. induction s as [|c s IH]; simpl; [reflexivity|by rewrite IH]. Qed.

Lemma substring_all (s : string) : String.substring 0 (String.length s) s = s.
Proof. induction s as [|c s IH]; simpl; [reflexivity|by rewrite IH]. Qed.

Lemma substring_append (s t : string) :
  String.substring (String.length s) (String.length t) (String.append s t) = t.
Proof. induction s as [|c s IH]; simpl; [apply substring_all|exact IH]. Qed.

Lemma endswith_append (s t : string) : endswith (String.append s t) t = true.
Proof.
  unfold endswith. rewrite string_length_append.
  replace (String.length t <=? String.length s + String.length t)%nat with true
    by (symmetry; apply Nat.leb_le; lia).
  replace (String.length s + String.length t - String.length t)%nat
    with (String.length s) by lia.
  rewrite substring_append. apply String.eqb_refl.
Qed.

Lemma append_ne (s t : string) : t <> "" -> String.append s t <> s.
Proof.
  intros Ht Heq. apply (f_equal String.length) in Heq.
  rewrite string_length_append in Heq. destruct t; [done|]. simpl in Heq. lia.
Qed.

Lemma npz_name_endswith path : endswith (npz_name path) ".npz" = true.
Proof.
  unfold npz_name. destruct (endswith path ".npz") eqn:He; [exact He|].
  apply endswith_append.
Qed.

(** X9.  With array-valued extrinsics, what [save_calibration] wrote is
    read back unchanged by [load_calibration] from the file name the
    archive went to, for every path and whatever the file system held
    before; that name is the path itself when the path ends in ".npz". *)
Theorem load_save_round_trip_with_extrinsics :
  forall cm dc ex path (fs : gmap string (gmap string npy)),
    load_calibration (npz_name path)
      (save_calibration (mkCalibrationData cm dc (Some ex)) path fs)
    = Ok (mkCalibrationData cm dc (Some ex)) /\
    (endswith path ".npz" = true -> npz_name path = path).
Proof.
  intros cm dc ex path fs. split; [|apply npz_name_id].
  unfold load_calibration, load. rewrite save_calibration_lookup. reflexivity.
Qed.

(** X10.  [load_calibration] raises FileNotFoundError when there is no file
    of that name, and KeyError when the archive lacks "camera_matrix" or,
    with that one readable, lacks "distortion_coeffs". *)
Theorem load_calibration_missing_file_or_key :
  forall path (fs : gmap string (gmap string npy)),
    match fs !! path with
    | None => load_calibration path fs = Raise FileNotFoundError
    | Some a =>
        (a !! "camera_matrix" = None ->
         load_calibration path fs = Raise KeyError) /\
        (forall cm, a !! "camera_matrix" = Some (Numeric cm) ->
                    a !! "distortion_coeffs" = None ->
                    load_calibration path fs = Raise KeyError)
    end.
Proof.
  intros path fs. unfold load_calibration, load.
  destruct (fs !! path) as [a|]; [|reflexivity]. simpl. unfold getitem. split.
  - by intros ->.
  - by intros cm -> ->.
Qed.

(** X11.  [load_calibration] returns a value exactly when the file exists,
    holds numeric arrays under "camera_matrix" and "distortion_coeffs", and
    under "extrinsics" holds a numeric array or nothing; the value returned
    has these arrays, with extrinsics [None] when the key is absent. *)
Theorem load_calibration_returns_iff :
  forall path (fs : gmap string (gmap string npy)) (data : CalibrationData),
    load_calibration path fs = Ok data <->
    exists a,
      fs !! path = Some a /\
      a !! "camera_matrix" = Some (Numeric (camera_matrix data)) /\
      a !! "distortion_coeffs" = Some (Numeric (distortion_coeffs data)) /\
      a !! "extrinsics" = Numeric <$> extrinsics data.
Proof.
  intros path fs [cm dc ex]. unfold load_calibration, load, get, getitem.
  cbn [camera_matrix distortion_coeffs extrinsics]. split.
  - destruct (fs !! path) as [a|]; [|discriminate]. simpl.
    destruct (a !! "camera_matrix") as [[cm'|]|] eqn:Hcm; try discriminate.
    destruct (a !! "distortion_coeffs") as [[dc'|]|] eqn:Hdc; try discriminate.
    destruct (a !! "extrinsics") as [[ex'|]|] eqn:Hex; simpl; try discriminate;
      intros [= <- <- <-]; exists a; by rewrite Hcm, Hdc, Hex.
  - intros (a & -> & Hcm & Hdc & Hex). simpl.
    rewrite Hcm, Hdc, Hex. simpl. by destruct ex.
Qed.

(** X13.  For a path that does not end in ".npz" the archive goes to the
    path with ".npz" appended; nothing is written under the path itself, so
    [load_calibration] on that path finds no file unless one was there
    before. *)
Theorem save_calibration_appends_extension :
  forall data path (fs : gmap string (gmap string npy)),
    endswith path ".npz" = false ->
    save_calibration data path fs !! String.append path ".npz"
      = Some (saved_archive data) /\
    save_calibration data path fs !! path = fs !! path /\
    (fs !! path = None ->
     load_calibration path (save_calibration data path fs)
     = Raise FileNotFoundError).
Proof.
  intros data path fs He.
  assert (Hn : npz_name path = String.append path ".npz").
  { unfold npz_name. by rewrite He. }
  assert (Hp : save_calibration data path fs !! path = fs !! path).
  { unfold save_calibration, savez. rewrite Hn.
    apply lookup_insert_ne. by apply append_ne. }
  split; [rewrite <- Hn; apply save_calibration_lookup|].
  split; [exact Hp|].
  intros Hnone. unfold load_calibration, load. by rewrite Hp, Hnone.
Qed.

(** X14.  The file name an archive is written to always ends in ".npz",
    and saving under that name writes the same file as saving under the
    path it was made from. *)
Theorem save_calibration_extension_once :
  forall data path (fs : gmap string (gmap string npy)),
    endswith (npz_name path) ".npz" = true /\
    npz_name (npz_name path) = npz_name path /\
    save_calibration data (npz_name path) fs = save_calibration data path fs.
Proof.
  intros data path fs.
  pose proof (npz_name_endswith path) as He.
  assert (Hi : npz_name (npz_name path) = npz_name path)
    by (by apply npz_name_id).
  split; [exact He|]. split; [exact Hi|].
  unfold save_calibration, savez. by rewrite Hi.
Qed.

Lemma save_calibration_appends_extension_witness :
  let data := mkCalibrationData (Array2 1 [[1%float]]) (Array1 [0%float]) None in
  save_calibration data "calib" ∅ !! "calib.npz" = Some (saved_archive data) /\
  save_calibration data "calib" ∅ !! "calib" = None.
Proof.
  cbv zeta.
  destruct (save_calibration_appends_extension
              (mkCalibrationData (Array2 1 [[1%float]]) (Array1 [0%float]) None)
              "calib" ∅ eq_refl) as (Hw & Hp & _).
  split; [exact Hw|]. rewrite Hp. apply lookup_empty.
Defined.

End CalibrationMore.

(* ===================================================================== *)
(** ** body_tracking.py: estimation, and estimation feeding the overlay *)
(* ===================================================================== *)

Module PipelineFacts.
Import Np BodyTracking Overlay OverlayFacts.

Lemma landmarks_rebuilt (lms : list PoseLandmark) :
  map (fun lm => mkPoseLandmark (x lm) (y lm) (z lm) (visibility lm)) lms = lms.
Proof.
  induction lms as [|[a b c d] lms IH]; simpl; [reflexivity|by rewrite IH].
Qed.

Section Pipeline.
Variable mp_process : image -> option (list PoseLandmark).
Variable cast_out_of_range : float -> Z.
Variable line_raster : Z * Z -> Z * Z -> Z -> list (Z * Z).
Variable circle_raster : Z * Z -> Z -> Z -> list (Z * Z).

Abbreviation estimate := (estimate mp_process).
Abbreviation batch_estimate := (batch_estimate mp_process).
Abbreviation drawable := (drawable cast_out_of_range).

Lemma estimate_nonempty frame :
  Cv2.empty frame = false ->
  exists rgb,
    Cv2.cvtColor_BGR2RGB frame = Ok rgb /\ dims rgb = dims frame /\
    estimate frame =
    Ok ((fun lms => mkPoseResult lms (Z.of_nat (rows frame))
                                 (Z.of_nat (cols frame)))
          <$> mp_process rgb).
Proof.
  intros He. unfold BodyTracking.estimate, Cv2.cvtColor_BGR2RGB. rewrite He.
  eexists. split; [reflexivity|]. split; [reflexivity|]. simpl.
  destruct (mp_process _) as [lms|]; simpl; [|reflexivity].
  by rewrite landmarks_rebuilt.
Qed.

Lemma batch_estimate_ok imgs :
  Forall (fun img => Cv2.empty img = false) imgs ->
  exists poses,
    batch_estimate imgs = (poses, Ok tt) /\
    Forall2 (fun img r => estimate img = Ok r) imgs poses.
Proof.
  induction imgs as [|img imgs IH]; intros Hne.
  { exists []. split; [reflexivity|constructor]. }
  apply Forall_cons in Hne as [He Hne].
  destruct (IH Hne) as (poses & Hb & Hall).
  destruct (estimate_nonempty img He) as (rgb & _ & _ & Hes).
  eexists (_ :: poses). cbn [BodyTracking.batch_estimate].
  rewrite Hes, Hb. split; [reflexivity|]. by constructor.
Qed.

(** X15.  On an empty frame [estimate] raises cv2.error without asking
    the model.  On any other frame it gives the model the frame with its
    first and third channel exchanged and the same dimensions; it returns
    [None] exactly when the model reports no landmarks, and otherwise the
    model's landmarks, unchanged and in order, with the frame's row and
    column counts. *)
Theorem estimate_passes_landmarks_through :
  forall frame : image,
    (Cv2.empty frame = true -> estimate frame = Raise Cv2Error) /\
    (Cv2.empty frame = false ->
     exists rgb,
       Cv2.cvtColor_BGR2RGB frame = Ok rgb /\
       dims rgb = dims frame /\
       (estimate frame = Ok None <-> mp_process rgb = None) /\
       (forall lms,
          mp_process rgb = Some lms ->
          estimate frame
          = Ok (Some (mkPoseResult lms (Z.of_nat (rows frame))
                                   (Z.of_nat (cols frame)))))).
Proof.
  intros frame. split.
  - intros He. unfold BodyTracking.estimate, Cv2.cvtColor_BGR2RGB. by rewrite He.
  - intros He. destruct (estimate_nonempty frame He) as (rgb & Hc & Hd & Hes).
    exists rgb. split; [exact Hc|]. split; [exact Hd|]. rewrite Hes. split.
    + destruct (mp_process rgb); simpl; split; congruence.
    + by intros lms ->.
Qed.

(** X16.  With colour components in 0..255, over allocated non-empty
    frames on each of which a pose result that [estimate] returns is
    drawable, [batch_estimate] ends normally with one result per image, and
    [render_sequence] over the frames and those results ends normally with
    one output per frame: the frame itself where nothing was detected, and
    elsewhere a newly allocated frame of the same dimensions; the frames
    given are unchanged. *)
Theorem render_sequence_of_batch_estimate :
  forall (colors : OverlayColors) (frames : list positive) (imgs : list image)
         (h : gmap positive image),
    byte_colors colors = true ->
    Forall2 (fun f img => h !! f = Some img) frames imgs ->
    Forall (fun img => Cv2.empty img = false) imgs ->
    Forall (fun img => forall p, estimate img = Ok (Some p) -> drawable p = true)
           imgs ->
    exists poses out h',
      batch_estimate imgs = (poses, Ok tt) /\
      length poses = length imgs /\
      render_sequence cast_out_of_range line_raster circle_raster colors
        frames poses h = (out, Ok tt, h') /\
      length out = length frames /\
      (forall l old, h !! l = Some old -> h' !! l = Some old) /\
      (forall k frame img,
         frames !! k = Some frame -> imgs !! k = Some img ->
         match estimate img with
         | Ok None => out !! k = Some frame
         | Ok (Some _) =>
             exists annotated img',
               out !! k = Some annotated /\ (annotated ∉ dom h) /\
               h' !! annotated = Some img' /\ dims img' = dims img
         | Raise _ => False
         end).
Proof.
  intros colors frames imgs h _ Hfi Hne Hdr.
  destruct (batch_estimate_ok imgs Hne) as (poses & Hb & Hall).
  assert (Hfr : Forall (fun f => is_Some (h !! f)) frames).
  { clear -Hfi. induction Hfi; constructor; eauto. }
  assert (Hps : Forall (renderable cast_out_of_range) poses).
  { clear -Hall Hdr. induction Hall as [|img r imgs poses Hr Hall IH]; [constructor|].
    apply Forall_cons in Hdr as [Hd Hdr]. constructor; [|by apply IH].
    destruct r as [p|]; simpl; [by apply Hd|done]. }
  destruct (render_sequence_zip cast_out_of_range line_raster circle_raster
              colors frames poses h Hfr Hps) as (out & h' & Hrs & Hlen & Hsub & Hk).
  pose proof (Forall2_length _ _ _ Hall) as Hl1.
  pose proof (Forall2_length _ _ _ Hfi) as Hl2.
  exists poses, out, h'. split; [exact Hb|]. split; [lia|].
  split; [exact Hrs|]. split; [lia|].
  split; [intros l old Hl; eapply lookup_weaken; eauto|].
  intros k frame img Hfk Hik.
  destruct (Forall2_lookup_l _ _ _ _ _ Hall Hik) as (r & Hpk & Hr).
  rewrite Hr. specialize (Hk k frame r Hfk Hpk).
  destruct r as [p|]; [|exact Hk].
  destruct Hk as (a & img0 & Ho & Ha & Hfi0 & Hh).
  pose proof (Forall2_lookup_lr _ _ _ _ _ _ Hfi Hfk Hik) as Hf. simpl in Hf.
  assert (img0 = img) as -> by congruence.
  exists a, (annotated_image cast_out_of_range line_raster circle_raster
               colors p img).
  repeat split; try done. apply annotated_image_dims.
Qed.

End Pipeline.

(** A model for the examples: a body on every image but those of one row. *)
Definition detect_one (img : image) : option (list PoseLandmark) :=
  if (rows img =? 1)%nat then None else Some [mkPoseLandmark 0.5 0.5 0 1].

Lemma render_sequence_of_batch_estimate_witness :
  let dark := Image 1 1 [(0, 0, 0)] in
  let h : gmap positive image :=
    {[ 1%positive := OverlayMore.grey_frame; 2%positive := dark ]} in
  exists poses out h',
    BodyTracking.batch_estimate detect_one [OverlayMore.grey_frame; dark]
      = (poses, Ok tt) /\
    length poses = 2%nat /\
    render_sequence (fun _ => int64_min) OverlayMore.dot_raster
      OverlayMore.point_raster default_colors [1%positive; 2%positive]
      poses h = (out, Ok tt, h') /\
    length out = 2%nat.
Proof.
  cbv zeta.
  destruct (render_sequence_of_batch_estimate detect_one (fun _ => int64_min)
              OverlayMore.dot_raster OverlayMore.point_raster default_colors
              [1%positive; 2%positive]
              [OverlayMore.grey_frame; Image 1 1 [(0, 0, 0)]]
              {[ 1%positive := OverlayMore.grey_frame;
                 2%positive := Image 1 1 [(0, 0, 0)] ]}
              eq_refl)
    as (poses & out & h' & Hb & Hlp & Hr & Hl & _).
  - repeat constructor.
  - repeat constructor.
  - repeat constructor.
    + intros p H. injection H as <-. reflexivity.
    + intros p H. discriminate H.
  - exists poses, out, h'. repeat split; assumption.
Defined.

End PipelineFacts.

(* ===================================================================== *)
(** ** capture.py: opening, releasing and reading the device *)
(* ===================================================================== *)

Module CaptureMore.
Import Np Capture CaptureFacts.

Section Session.
Variable device_opens : rs_config -> bool.
Variable align_process : frameset -> frameset.

Abbreviation start := (start device_opens).
Abbreviation wait_pair := (wait_pair align_process).
Abbreviation resume := (resume align_process).
Abbreviation next := (next align_process).
Abbreviation pulls := (pulls align_process).
Abbreviation enter := (enter device_opens).
Abbreviation with_session := (with_session device_opens).

Lemma start_opens (s : CaptureSession) :
  _started s = false ->
  device_opens (build_config (_config s)) = true ->
  start s =
  (Ok tt,
   mkCaptureSession (_config s)
     (mkPipeline (device_log (_pipeline s) ++ [DevStart (build_config (_config s))])
                 (incoming (_pipeline s)))
     (_align s) true).
Proof.
  intros Hs Hd. unfold Capture.start, pipeline_start. by rewrite Hs, Hd.
Qed.

Lemma start_fails (s : CaptureSession) :
  _started s = false ->
  device_opens (build_config (_config s)) = false ->
  start s = (Raise RuntimeError, s).
Proof.
  intros Hs Hd. unfold Capture.start, pipeline_start. rewrite Hd.
  destruct s as [c p a st]. simpl in *. by subst st.
Qed.

Lemma wait_pair_suffix align inc :
  exists consumed, inc = consumed ++ (wait_pair align inc).2.
Proof.
  induction inc as [|[fs|e] inc IH]; simpl.
  - by exists [].
  - destruct IH as [consumed IH].
    destruct (get_color_frame _) as [c|];
      [destruct (get_depth_frame _) as [d|]|]; simpl.
    + by exists [Ok fs].
    + exists (Ok fs :: consumed). simpl. by f_equal.
    + exists (Ok fs :: consumed). simpl. by f_equal.
  - by exists [Raise e].
Qed.

(** X18.  [start] on a session that is not started, with a device that
    opens, opens it once with the configuration built from the session's
    settings and marks the session started; [stop] after that releases it
    once and leaves the session as it was before [start] but for the device
    log; and [frames] on the stopped session raises RuntimeError again. *)
Theorem start_then_stop :
  forall s : CaptureSession,
    _started s = false ->
    device_opens (build_config (_config s)) = true ->
    let s1 := snd (start s) in
    let s2 := stop s1 in
    fst (start s) = Ok tt /\
    _started s1 = true /\
    device_log (_pipeline s1)
      = device_log (_pipeline s) ++ [DevStart (build_config (_config s))] /\
    s2 = mkCaptureSession (_config s)
           (mkPipeline
              (device_log (_pipeline s)
                 ++ [DevStart (build_config (_config s)); DevStop])
              (incoming (_pipeline s)))
           (_align s) false /\
    next Created s2 = (Raised RuntimeError, Finished, s2).
Proof.
  intros s Hs Hd. cbv zeta. rewrite (start_opens s Hs Hd). cbn.
  split; [reflexivity|]. split; [reflexivity|]. split; [reflexivity|].
  split; [|reflexivity].
  unfold pipeline_stop; simpl. by rewrite <- app_assoc.
Qed.

(** X19.  When the device cannot be opened, [start] raises RuntimeError
    and leaves the session exactly as it was: not started, the device log
    untouched; [frames] on it still raises RuntimeError. *)
Theorem start_failure_leaves_session :
  forall s : CaptureSession,
    _started s = false ->
    device_opens (build_config (_config s)) = false ->
    start s = (Raise RuntimeError, s) /\
    next Created (snd (start s)) = (Raised RuntimeError, Finished, s).
Proof.
  intros s Hs Hd. rewrite (start_fails s Hs Hd). split; [reflexivity|].
  unfold Capture.next. simpl. by rewrite Hs.
Qed.

(** X20.  A session made by [playback] is not started and aligns depth to
    colour; [start] on it asks the device for the colour stream as BGR8 and
    then the depth stream as Z16, both 848 x 480 at 30 frames a second, from
    the given file with repeated playback. *)
Theorem playback_start_opens_file :
  forall (file : string) (p : rs_pipeline),
    let cfg :=
      mkRsConfig [ mkStreamRequest stream_color 848 480 bgr8 30;
                   mkStreamRequest stream_depth 848 480 z16 30 ]
                 (Some (file, true)) in
    device_opens cfg = true ->
    _started (playback file p) = false /\
    _align (playback file p) = true /\
    start (playback file p)
    = (Ok tt,
       mkCaptureSession (_config (playback file p))
         (mkPipeline (device_log p ++ [DevStart cfg]) (incoming p))
         true true).
Proof.
  intros file p cfg Hd. split; [reflexivity|]. split; [reflexivity|].
  by rewrite (start_opens (playback file p) eq_refl Hd).
Qed.

Lemma next_keeps_flag_and_log g s :
  _started (next g s).2 = _started s /\
  device_log (_pipeline (next g s).2) = device_log (_pipeline s).
Proof.
  unfold Capture.next, Capture.resume.
  destruct g; [destruct (negb (_started s))| |]; simpl; try done;
    by destruct (wait_pair (_align s) (incoming (_pipeline s))) as [[v|e| |] rest].
Qed.

(** X21.  A call of [next] on the generator of [frames] never changes the
    session's configuration, its alignment setting, its started flag or
    the device log: it neither opens nor releases the device.  It only
    takes deliveries from the front of those to come. *)
Theorem next_only_consumes_deliveries :
  forall (g : gen_state) (s : CaptureSession),
    let s' := (next g s).2 in
    _config s' = _config s /\
    _align s' = _align s /\
    _started s' = _started s /\
    device_log (_pipeline s') = device_log (_pipeline s) /\
    exists consumed,
      incoming (_pipeline s) = consumed ++ incoming (_pipeline s').
Proof.
  intros g s. cbv zeta.
  assert (Hres : let s' := (resume s).2 in
            _config s' = _config s /\ _align s' = _align s /\
            _started s' = _started s /\
            device_log (_pipeline s') = device_log (_pipeline s) /\
            exists consumed,
              incoming (_pipeline s) = consumed ++ incoming (_pipeline s')).
  { cbv zeta. unfold Capture.resume.
    destruct (wait_pair_suffix (_align s) (incoming (_pipeline s)))
      as [consumed Hc].
    destruct (wait_pair (_align s) (incoming (_pipeline s))) as [st rest].
    simpl in Hc. destruct st; simpl; repeat split; by exists consumed. }
  destruct g; simpl.
  - destruct (_started s) eqn:Hs; simpl; [exact Hres|].
    repeat split; [done|]. by exists [].
  - exact Hres.
  - repeat split. by exists [].
Qed.

Lemma wait_pair_raises align (skipped : list frameset) e later :
  Forall (fun fs => get_color_frame (Capture.view align_process align fs) = None \/
                    get_depth_frame (Capture.view align_process align fs) = None)
         skipped ->
  wait_pair align (map Ok skipped ++ Raise e :: later) = (Raised e, later).
Proof.
  induction skipped as [|fs skipped IH]; intros Hs; [reflexivity|].
  apply Forall_cons in Hs as [Hfs Hs].
  change (map Ok (fs :: skipped) ++ Raise e :: later)
    with (Ok fs :: (map Ok skipped ++ Raise e :: later)).
  rewrite (wait_pair_skips align_process align fs _ Hfs). by apply IH.
Qed.

(** X22.  An exception from the device ends the generator.  On a started
    session whose coming deliveries are framesets lacking a component
    followed by an exception, the first [next] raises that exception,
    leaving the deliveries after it in place, and every later [next] gives
    StopIteration, whatever those deliveries are: nothing is retried. *)
Theorem frames_not_resumed_after_exception :
  forall (s : CaptureSession) (skipped : list frameset) (e : exn)
         (later : list (result frameset)) (n : nat),
    _started s = true ->
    incoming (_pipeline s) = map Ok skipped ++ Raise e :: later ->
    Forall (fun fs =>
              get_color_frame (Capture.view align_process (_align s) fs) = None \/
              get_depth_frame (Capture.view align_process (_align s) fs) = None)
           skipped ->
    pulls (S n) Created s
    = (Raised e :: replicate n StopIteration, Finished,
       mkCaptureSession (_config s)
         (mkPipeline (device_log (_pipeline s)) later)
         (_align s) (_started s)).
Proof.
  intros s skipped e later n Hs Hinc Hsk.
  cbn [Capture.pulls Capture.next]. rewrite Hs. cbn [negb].
  unfold Capture.resume. rewrite Hinc, (wait_pair_raises _ _ _ _ Hsk).
  rewrite pulls_finished. by rewrite Hs.
Qed.

(** X23.  When [__enter__] raises because the device cannot be opened, the
    [with] statement raises that RuntimeError, the body is not run, [stop]
    is not called and the session stays as it was. *)
Theorem with_session_enter_failure :
  forall (R : Type) (w : world) (body : world -> result R * world),
    _started (session w) = false ->
    device_opens (build_config (_config (session w))) = false ->
    with_session w body
    = (Raise RuntimeError, mkWorld (session w) (calls w ++ [M_start])) /\
    stop_calls (snd (with_session w body)) = stop_calls w.
Proof.
  intros R w body Hs Hd.
  assert (He : with_session w body
               = (Raise RuntimeError, mkWorld (session w) (calls w ++ [M_start]))).
  { unfold Capture.with_session, Capture.enter, call_start.
    by rewrite (start_fails (session w) Hs Hd). }
  split; [exact He|]. rewrite He. unfold stop_calls. simpl.
  rewrite List.filter_app, length_app. simpl. lia.
Qed.

(** X24.  A [with] statement over a session that is not started, with a
    device that opens and a body that leaves the session object alone,
    opens the device once before the body and releases it once after,
    whether the body returns or raises; the session ends not started. *)
Theorem with_session_opens_and_releases_once :
  forall (R : Type) (w : world) (body : world -> result R * world),
    _started (session w) = false ->
    device_opens (build_config (_config (session w))) = true ->
    (forall w1, session (snd (body w1)) = session w1) ->
    let final := session (snd (with_session w body)) in
    device_log (_pipeline final)
      = device_log (_pipeline (session w))
          ++ [DevStart (build_config (_config (session w))); DevStop] /\
    incoming (_pipeline final) = incoming (_pipeline (session w)) /\
    _started final = false.
Proof.
  intros R w body Hs Hd Hb. cbv zeta.
  unfold Capture.with_session, Capture.enter, call_start.
  rewrite (start_opens (session w) Hs Hd).
  set (w1 := mkWorld _ _). specialize (Hb w1).
  destruct (body w1) as [r w2]. simpl in Hb. simpl.
  rewrite Hb. subst w1. cbn. unfold pipeline_stop; simpl.
  by rewrite <- app_assoc.
Qed.

(** X25.  A [with] statement over a session that is already started does
    not open the device again, yet releases it on exit: with a body that
    neither starts nor stops the session (it may pull frames), so that the
    started flag and the device log are after the body what they were
    before, the device log gains one release and no opening, and the
    session ends not started. *)
Theorem with_session_on_started_session :
  forall (R : Type) (w : world) (body : world -> result R * world),
    _started (session w) = true ->
    (forall w1,
       _started (session (snd (body w1))) = _started (session w1) /\
       device_log (_pipeline (session (snd (body w1))))
       = device_log (_pipeline (session w1))) ->
    let final := session (snd (with_session w body)) in
    enter w = (Ok tt, mkWorld (session w) (calls w ++ [M_start])) /\
    device_log (_pipeline final)
      = device_log (_pipeline (session w)) ++ [DevStop] /\
    _started final = false.
Proof.
  intros R w body Hs Hb. cbv zeta.
  assert (He : enter w = (Ok tt, mkWorld (session w) (calls w ++ [M_start]))).
  { unfold Capture.enter, call_start, Capture.start. by rewrite Hs. }
  split; [exact He|].
  unfold Capture.with_session. rewrite He.
  set (w1 := mkWorld _ _). destruct (Hb w1) as [Hst Hlog].
  destruct (body w1) as [r w2]. simpl in Hst, Hlog. simpl.
  unfold Capture.stop. rewrite Hst, Hs. simpl. by rewrite Hlog.
Qed.

End Session.

(** X26.  A session whose alignment is off never calls the align
    processor: [next] gives the same step, generator state and session for
    any two processors. *)
Theorem frames_without_alignment :
  forall (f f' : frameset -> frameset) (g : gen_state) (s : CaptureSession),
    _align s = false ->
    Capture.next f g s = Capture.next f' g s.
Proof.
  intros f f' g s Ha.
  assert (Hw : forall inc, Capture.wait_pair f false inc
                           = Capture.wait_pair f' false inc).
  { induction inc as [|[fs|e] inc IH]; simpl; [done| |done].
    by rewrite IH. }
  unfold Capture.next, Capture.resume. rewrite Ha, Hw. reflexivity.
Qed.

(** *** The statements above at concrete sessions *)

Lemma start_then_stop_witness :
  let s := init default_config sample_pipeline in
  device_log (_pipeline (stop (snd (Capture.start (fun _ => true) s))))
  = [DevStart (build_config default_config); DevStop].
Proof.
  cbv zeta.
  destruct (start_then_stop (fun _ => true) id
              (init default_config sample_pipeline) eq_refl eq_refl)
    as (_ & _ & _ & H & _).
  rewrite H. reflexivity.
Defined.

Lemma start_failure_leaves_session_witness :
  let s := init default_config sample_pipeline in
  Capture.start (fun _ => false) s = (Raise RuntimeError, s).
Proof.
  exact (proj1 (start_failure_leaves_session (fun _ => false) id
                  (init default_config sample_pipeline) eq_refl eq_refl)).
Defined.

Lemma playback_start_opens_file_witness :
  _started (playback "walk.bag" sample_pipeline) = false /\
  _align (playback "walk.bag" sample_pipeline) = true.
Proof.
  destruct (playback_start_opens_file (fun _ => true) "walk.bag"
              sample_pipeline eq_refl) as (Hs & Ha & _).
  split; assumption.
Defined.

Lemma frames_not_resumed_after_exception_witness :
  let later := [Ok (mkFrameset (Some black_frame) (Some flat_depth))] in
  let s := mkCaptureSession default_config
             (mkPipeline []
                (Ok (mkFrameset (Some black_frame) None)
                   :: Raise RuntimeError :: later))
             false true in
  Capture.pulls id 3 Created s
  = ([Raised RuntimeError; StopIteration; StopIteration], Finished,
     mkCaptureSession default_config (mkPipeline [] later) false true).
Proof.
  exact (frames_not_resumed_after_exception id
           (mkCaptureSession default_config
              (mkPipeline []
                 [Ok (mkFrameset (Some black_frame) None);
                  Raise RuntimeError;
                  Ok (mkFrameset (Some black_frame) (Some flat_depth))])
              false true)
           [mkFrameset (Some black_frame) None] RuntimeError
           [Ok (mkFrameset (Some black_frame) (Some flat_depth))] 2
           eq_refl eq_refl
           ltac:(constructor; [right; reflexivity|constructor])).
Defined.

Lemma with_session_enter_failure_witness :
  let w := mkWorld (init default_config sample_pipeline) [] in
  Capture.with_session (fun _ => false) w (fun w1 => (Ok tt, w1))
  = (Raise RuntimeError, mkWorld (session w) [M_start]).
Proof.
  exact (proj1 (with_session_enter_failure (fun _ => false) unit
                  (mkWorld (init default_config sample_pipeline) [])
                  (fun w1 => (Ok tt, w1)) eq_refl eq_refl)).
Defined.

Lemma with_session_opens_and_releases_once_witness :
  let w := mkWorld (init default_config sample_pipeline) [] in
  device_log (_pipeline (session (snd
    (Capture.with_session (fun _ => true) w
       (fun w1 => (@Raise unit ValueError, w1))))))
  = [DevStart (build_config default_config); DevStop].
Proof.
  exact (proj1 (with_session_opens_and_releases_once (fun _ => true) unit
                  (mkWorld (init default_config sample_pipeline) [])
                  (fun w1 => (@Raise unit ValueError, w1))
                  eq_refl eq_refl (fun _ => eq_refl))).
Defined.

Lemma with_session_on_started_session_witness :
  let s := mkCaptureSession default_config sample_pipeline true true in
  device_log (_pipeline (session (snd
    (Capture.with_session (fun _ => true) (mkWorld s [])
       (fun w1 => (Ok tt, mkWorld (Capture.next id Created (session w1)).2
                                  (calls w1)))))))
  = [DevStop].
Proof.
  exact (proj1 (proj2 (with_session_on_started_session (fun _ => true) unit
                  (mkWorld (mkCaptureSession default_config sample_pipeline
                              true true) [])
                  (fun w1 => (Ok tt, mkWorld (Capture.next id Created (session w1)).2
                                             (calls w1)))
                  eq_refl
                  (fun w1 => next_keeps_flag_and_log id Created (session w1))))).
Defined.

Lemma frames_without_alignment_witness :
  let s := mkCaptureSession default_config sample_pipeline false true in
  Capture.next id Created s
  = Capture.next (fun _ => mkFrameset None None) Created s.
Proof.
  exact (frames_without_alignment id (fun _ => mkFrameset None None) Created
           (mkCaptureSession default_config sample_pipeline false true) eq_refl).
Defined.

End CaptureMore.
